(** * Oyama's HRT recorder: the application shell and the PK engine contract

    The development has four parts.

    - [JS]: the JavaScript values the application code handles (parsed JSON,
      IEEE-754 doubles as primitive floats, truthiness, [typeof], [Number]).
    - [App]: the state of the [AppContent] component and the handlers that
      update events and weight (file import, event save, cloud load, cloud
      import, cloud polling, the simulation effect and the current level).
    - [Engine]: the contribution function and the interpolator of the
      pharmacokinetic engine.  Its implementation file ([logic.ts]) is not
      part of the sources at hand, only its callers are; the two functions
      are therefore modelled from the specification, over the real numbers.
    - [Handlers]: the remaining handlers of the component (delete, export,
      import of a file's text, upload, timeline groups, the sync dialog). *)

From Stdlib Require Import List String Ascii Bool Arith Lia Permutation.
From Stdlib Require Import Floats.
From Stdlib Require Import Reals Lra.
Import ListNotations.

Set Implicit Arguments.
Set Warnings "-register-all".
Open Scope string_scope.
Open Scope list_scope.

(* ================================================================= *)
(** ** JavaScript values *)

Module JS.

(** A JavaScript number is an IEEE-754 binary64 value. *)
Definition number := float.

Inductive value : Type :=
| Undefined
| Null
| Bool (b : bool)
| Num (x : number)
| Str (s : string)
| Arr (items : list value)
| Obj (props : list (string * value)).

(** Completion of a computation that may throw. *)
Inductive Completion (A : Type) : Type :=
| Normal (a : A)
| Thrown (reason : string).
Arguments Thrown {A} reason.

Definition bind {A B} (c : Completion A) (k : A -> Completion B) : Completion B :=
  match c with
  | Normal a => k a
  | Thrown r => Thrown r
  end.

Notation "x <- c ;; k" := (bind c (fun x => k))
  (at level 61, c at next level, right associativity).

(** Property read [v.k]: own properties of a parsed JSON object, listed with
    each key once; every other value answers [undefined] for the keys the
    application reads. *)
Fixpoint lookup (k : string) (props : list (string * value)) : value :=
  match props with
  | [] => Undefined
  | (k', v) :: rest => if String.eqb k' k then v else lookup k rest
  end.

Definition get (v : value) (k : string) : value :=
  match v with
  | Obj props => lookup k props
  | _ => Undefined
  end.

(** Truthiness of a number: [0], [-0] and [NaN] are falsy. *)
Definition truthyNum (x : number) : bool :=
  negb (PrimFloat.eqb x 0 || PrimFloat.is_nan x).

Definition truthyStr (s : string) : bool :=
  match s with
  | EmptyString => false
  | _ => true
  end.

Definition truthy (v : value) : bool :=
  match v with
  | Undefined | Null => false
  | Bool b => b
  | Num x => truthyNum x
  | Str s => truthyStr s
  | Arr _ | Obj _ => true
  end.

(** [typeof v === 'object'] *)
Definition typeofObject (v : value) : bool :=
  match v with
  | Null | Arr _ | Obj _ => true
  | _ => false
  end.

Definition isArray (v : value) : bool :=
  match v with
  | Arr _ => true
  | _ => false
  end.

(** [Number.isFinite] *)
Definition isFinite (x : number) : bool := PrimFloat.is_finite x.

(** [a > b] on two strings: lexicographic comparison of code units. *)
Definition strGt (a b : string) : bool :=
  match String.compare a b with
  | Gt => true
  | _ => false
  end.

Section Builtins.

(** The runtime's StringToNumber, and its conversion of an array or object
    to a number (through [valueOf]/[toString]; it throws a TypeError when
    neither is callable). *)
Variable StringToNumber : string -> number.
Variable ObjectToNumber : value -> Completion number.

(** [Number(v)] *)
Definition Number (v : value) : Completion number :=
  match v with
  | Undefined => Normal PrimFloat.nan
  | Null => Normal 0%float
  | Bool true => Normal 1%float
  | Bool false => Normal 0%float
  | Num x => Normal x
  | Str s => Normal (StringToNumber s)
  | Arr _ | Obj _ => ObjectToNumber v
  end.

End Builtins.

End JS.

(* ================================================================= *)
(** ** The application component *)

Module App.
Import JS.

Record DoseEvent : Type := mkDoseEvent {
  id : string;
  route : string;
  timeH : number;
  doseMG : number;
  ester : string;
  extras : value
}.

(** Cloud payload ([SyncData]), typed as the handlers use it: a weight
    number, an event array and the [meta.exportedAt] string, each optional
    since the handlers test for its presence. *)
Record SyncData : Type := mkSyncData {
  exportedAt : option string;      (* [meta && meta.exportedAt] *)
  cloudWeight : option number;     (* [weight], absent when null/undefined *)
  cloudEvents : option (list DoseEvent)  (* [events], absent when falsy *)
}.

(** Result of [await fetchFromCloud(config)]. *)
Inductive FetchOutcome : Type :=
| FetchFailed
| FetchNull
| FetchData (d : SyncData).

Section Component.

(** Declarations imported from the engine module and the uuid package. *)
Variable SimulationResult : Type.
Variable runSimulation : list DoseEvent -> number -> SimulationResult.
Variable interpolateConcentration : SimulationResult -> number -> option number.
Variable RouteValues : list string.   (* [Object.values(Route)] *)
Variable EsterValues : list string.   (* [Object.values(Ester)] *)
Variable Ester_E2 : string.           (* [Ester.E2] *)
Variable uuidv4 : nat -> string.      (* the n-th identifier drawn *)
Variable StringToNumber : string -> number.
Variable ObjectToNumber : value -> Completion number.
Variable parseFloat : string -> number.

Record AppState : Type := mkAppState {
  events : list DoseEvent;
  weight : number;
  simulation : option SimulationResult;
  currentTime : number;              (* [currentTime.getTime()], in ms *)
  syncEnabled : bool;                (* [syncConfig.isEnabled] *)
  isSyncing : bool;                  (* [syncStatus.isSyncing] *)
  isImporting : bool;                (* [isImportingRef.current] *)
  syncTimer : bool;                  (* [syncTimerRef.current] is set *)
  initialLoadComplete : bool;        (* [initialLoadCompleteRef.current] *)
  lastLocalModification : string;    (* [lastLocalModificationRef.current] *)
  drawn : nat                        (* identifiers drawn from uuidv4 *)
}.

Definition setEvents (es : list DoseEvent) (st : AppState) : AppState :=
  mkAppState es (weight st) (simulation st) (currentTime st) (syncEnabled st)
    (isSyncing st) (isImporting st) (syncTimer st) (initialLoadComplete st)
    (lastLocalModification st) (drawn st).

Definition setWeight (w : number) (st : AppState) : AppState :=
  mkAppState (events st) w (simulation st) (currentTime st) (syncEnabled st)
    (isSyncing st) (isImporting st) (syncTimer st) (initialLoadComplete st)
    (lastLocalModification st) (drawn st).

Definition setSimulation (s : option SimulationResult) (st : AppState) : AppState :=
  mkAppState (events st) (weight st) s (currentTime st) (syncEnabled st)
    (isSyncing st) (isImporting st) (syncTimer st) (initialLoadComplete st)
    (lastLocalModification st) (drawn st).

Definition setSyncEnabled (b : bool) (st : AppState) : AppState :=
  mkAppState (events st) (weight st) (simulation st) (currentTime st) b
    (isSyncing st) (isImporting st) (syncTimer st) (initialLoadComplete st)
    (lastLocalModification st) (drawn st).

Definition setIsImporting (b : bool) (st : AppState) : AppState :=
  mkAppState (events st) (weight st) (simulation st) (currentTime st)
    (syncEnabled st) (isSyncing st) b (syncTimer st) (initialLoadComplete st)
    (lastLocalModification st) (drawn st).

Definition setInitialLoadComplete (b : bool) (st : AppState) : AppState :=
  mkAppState (events st) (weight st) (simulation st) (currentTime st)
    (syncEnabled st) (isSyncing st) (isImporting st) (syncTimer st) b
    (lastLocalModification st) (drawn st).

Definition setLastLocalModification (s : string) (st : AppState) : AppState :=
  mkAppState (events st) (weight st) (simulation st) (currentTime st)
    (syncEnabled st) (isSyncing st) (isImporting st) (syncTimer st)
    (initialLoadComplete st) s (drawn st).

Definition setDrawn (n : nat) (st : AppState) : AppState :=
  mkAppState (events st) (weight st) (simulation st) (currentTime st)
    (syncEnabled st) (isSyncing st) (isImporting st) (syncTimer st)
    (initialLoadComplete st) (lastLocalModification st) n.

(** *** Initial state: [useState] initialisers *)

(** [saved ? parseFloat(saved) : 70.0] on the stored string, if any. *)
Definition initialWeight (saved : option string) : number :=
  match saved with
  | Some s => if truthyStr s then parseFloat s else 70.0%float
  | None => 70.0%float
  end.

(** *** Simulation effect and current level *)

Definition simulationEffect (st : AppState) : AppState :=
  if Nat.ltb 0 (List.length (events st))
  then setSimulation (Some (runSimulation (events st) (weight st))) st
  else setSimulation None st.

(** [x || 0] on the interpolator's answer. *)
Definition orZero (o : option number) : number :=
  match o with
  | Some x => if truthyNum x then x else 0%float
  | None => 0%float
  end.

Definition currentLevel (st : AppState) : number :=
  match simulation st with
  | None => 0%float
  | Some sim =>
      let h := (currentTime st / 3600000)%float in
      orZero (interpolateConcentration sim h)
  end.

(** *** File import *)

(** [Object.values(E).includes(v)]: the enum values are strings, so only a
    string equal to one of them is included. *)
Definition includes (vals : list string) (v : value) : option string :=
  match v with
  | Str s => if existsb (String.eqb s) vals then Some s else None
  | _ => None
  end.

(** The callback of [raw.map] in [sanitizeImportedEvents]; [n] counts the
    identifiers drawn so far. *)
Definition sanitizeItem (item : value) (n : nat)
  : Completion (option DoseEvent * nat) :=
  if negb (truthy item) || negb (typeofObject item) then Normal (None, n)
  else
    match includes RouteValues (get item "route") with
    | None => Normal (None, n)
    | Some r =>
        timeNum <- Number StringToNumber ObjectToNumber (get item "timeH") ;;
        if negb (isFinite timeNum) then Normal (None, n)
        else
          doseNum <- Number StringToNumber ObjectToNumber (get item "doseMG") ;;
          let validEster :=
            match includes EsterValues (get item "ester") with
            | Some e => e
            | None => Ester_E2
            end in
          let ex := get item "extras" in
          let sanitizedExtras :=
            if truthy ex && typeofObject ex then ex else Obj [] in
          let '(ident, n') :=
            match get item "id" with
            | Str s => (s, n)
            | _ => (uuidv4 n, S n)
            end in
          Normal (Some (mkDoseEvent ident r timeNum
                          (if isFinite doseNum then doseNum else 0%float)
                          validEster sanitizedExtras), n')
    end.

Fixpoint mapItems (items : list value) (n : nat)
  : Completion (list (option DoseEvent) * nat) :=
  match items with
  | [] => Normal ([], n)
  | item :: rest =>
      r <- sanitizeItem item n ;;
      rs <- mapItems rest (snd r) ;;
      Normal (fst r :: fst rs, snd rs)
  end.

(** [.filter(item => item !== null)] *)
Fixpoint filterNotNull (l : list (option DoseEvent)) : list DoseEvent :=
  match l with
  | [] => []
  | Some e :: rest => e :: filterNotNull rest
  | None :: rest => filterNotNull rest
  end.

(** The entries the callback keeps: objects whose route is a known Route
    value and whose timestamp converts to a finite number. *)
Definition kept (item : value) : bool :=
  truthy item && typeofObject item &&
  match includes RouteValues (get item "route") with
  | Some _ =>
      match Number StringToNumber ObjectToNumber (get item "timeH") with
      | Normal t => isFinite t
      | Thrown _ => false
      end
  | None => false
  end.

(** What an output event owes to the entry it comes from. *)
Definition sanitizedFrom (item : value) (e : DoseEvent) : Prop :=
  get item "route" = Str (route e)
  /\ Number StringToNumber ObjectToNumber (get item "timeH") = Normal (timeH e)
  /\ In (route e) RouteValues
  /\ isFinite (timeH e) = true
  /\ isFinite (doseMG e) = true
  /\ exists d,
       Number StringToNumber ObjectToNumber (get item "doseMG") = Normal d
       /\ doseMG e = if isFinite d then d else 0%float.

Definition sanitizeImportedEvents (raw : value) (n : nat)
  : Completion (list DoseEvent * nat) :=
  match raw with
  | Arr items =>
      r <- mapItems items n ;;
      Normal (filterNotNull (fst r), snd r)
  | _ => Thrown "Invalid format"
  end.

(** [typeof parsed.weight === 'number' && parsed.weight > 0] *)
Definition importedWeight (parsed : value) : option number :=
  match get parsed "weight" with
  | Num w => if PrimFloat.ltb 0 w then Some w else None
  | _ => None
  end.

Definition falsyWeight (w : option number) : bool :=
  match w with
  | Some x => negb (truthyNum x)
  | None => true
  end.

(** The [try] block of [processImportedData]: the new events, the new
    weight and the identifier count, or a throw. *)
Definition readImportedData (parsed : value) (n : nat)
  : Completion (list DoseEvent * option number * nat) :=
  r <- (match parsed with
        | Arr _ =>
            ev <- sanitizeImportedEvents parsed n ;;
            Normal (fst ev, None, snd ev)
        | Obj _ =>
            ev <- (if isArray (get parsed "events")
                   then sanitizeImportedEvents (get parsed "events") n
                   else Normal ([], n)) ;;
            Normal (fst ev, importedWeight parsed, snd ev)
        | _ => Normal ([], None, n)
        end) ;;
  let '(newEvents, newWeight, n') := r in
  if Nat.eqb (List.length newEvents) 0 && falsyWeight newWeight
  then Thrown "No valid entries"
  else Normal (newEvents, newWeight, n').

(** [processImportedData]: the state after the call and the returned flag.
    A throw inside the [try] leaves events and weight as they were. *)
Definition processImportedData (parsed : value) (st : AppState)
  : AppState * bool :=
  match readImportedData parsed (drawn st) with
  | Normal (newEvents, newWeight, n') =>
      let st1 := if Nat.ltb 0 (List.length newEvents)
                 then setEvents newEvents st else st in
      let st2 := match newWeight with
                 | Some w => setWeight w st1
                 | None => st1
                 end in
      (setDrawn n' st2, true)
  | Thrown _ => (st, false)
  end.

(** *** Editing events *)

Definition sameId (e p : DoseEvent) : bool := String.eqb (id p) (id e).

Definition handleSaveEvent (e : DoseEvent) (prev : list DoseEvent)
  : list DoseEvent :=
  match find (sameId e) prev with
  | Some _ => map (fun p => if sameId e p then e else p) prev
  | None => prev ++ [e]
  end.

(** *** Cloud synchronisation *)

Definition orEmpty (es : option (list DoseEvent)) : list DoseEvent :=
  match es with
  | Some l => l
  | None => []
  end.

(** [w ?? 70.0] *)
Definition orDefaultWeight (w : option number) : number :=
  match w with
  | Some x => x
  | None => 70.0%float
  end.

(** [meta && meta.exportedAt], when truthy. *)
Definition stamp (d : SyncData) : option string :=
  match exportedAt d with
  | Some s => if truthyStr s then Some s else None
  | None => None
  end.

Definition recordStamp (d : SyncData) (st : AppState) : AppState :=
  match stamp d with
  | Some s => setLastLocalModification s st
  | None => st
  end.

(** [loadFromCloud], run once on mount, up to its [finally] block; [r] is
    what the fetch returns. *)
Definition loadFromCloud (r : FetchOutcome) (st : AppState) : AppState :=
  if negb (syncEnabled st) then setInitialLoadComplete true st
  else
    let st1 := setIsImporting true st in
    match r with
    | FetchData d =>
        match cloudEvents d with
        | Some ((_ :: _) as es) =>
            recordStamp d (setWeight (orDefaultWeight (cloudWeight d))
                             (setEvents es st1))
        | _ =>
            match stamp d with
            | Some s =>
                setLastLocalModification s
                  (setWeight (orDefaultWeight (cloudWeight d))
                     (setEvents [] st1))
            | None => st1
            end
        end
    | _ => st1
    end.

(** The timer armed by the [finally] block of [loadFromCloud]. *)
Definition loadFromCloudDone (st : AppState) : AppState :=
  setInitialLoadComplete true (setIsImporting false st).

(** The part of the polling callback that runs once the fetch has
    answered [r], in the state [st] of that moment. *)
Definition pollResume (r : FetchOutcome) (st : AppState) : AppState :=
  match r with
  | FetchData d =>
      match stamp d with
      | Some cloudTime =>
          let localTime := lastLocalModification st in
          if strGt cloudTime localTime
          then setLastLocalModification cloudTime
                 (setWeight (orDefaultWeight (cloudWeight d))
                    (setEvents (orEmpty (cloudEvents d))
                       (setIsImporting true st)))
          else st
      | None => st
      end
  | _ => st
  end.

(** The callback of the 30 s polling interval ([pollInterval]).  Its guards
    read the state [started] in which the callback begins; the rest runs
    after the fetch, in the state [st]. *)
Definition pollInterval (started : AppState) (r : FetchOutcome) (st : AppState)
  : AppState :=
  if isImporting started || isSyncing started then st
  else if syncTimer started then st
  else pollResume r st.

(** [handleCloudSyncSave]: [confirmed] is the user's answer to the
    overwrite prompt. *)
Definition handleCloudSyncSave (newEnabled : bool) (r : FetchOutcome)
    (confirmed : bool) (st : AppState) : AppState :=
  let wasEnabled := syncEnabled st in
  let st1 := setSyncEnabled newEnabled st in
  if negb wasEnabled && newEnabled then
    match r with
    | FetchData d =>
        if confirmed
        then recordStamp d (setWeight (orDefaultWeight (cloudWeight d))
                              (setEvents (orEmpty (cloudEvents d)) st1))
        else st1
    | _ => st1
    end
  else st1.

Definition handleImportFromCloud (data : SyncData) (st : AppState) : AppState :=
  recordStamp data
    (setWeight (orDefaultWeight (cloudWeight data))
       (setEvents (orEmpty (cloudEvents data))
          (setIsImporting true st))).

(** *** The weight invariant *)

(** The stored weight is strictly positive. *)
Definition positiveWeight (st : AppState) : Prop :=
  PrimFloat.ltb 0 (weight st) = true.

(** A fetch outcome whose payload, if any, has no weight or a strictly
    positive one. *)
Definition payloadWeightPositive (r : FetchOutcome) : Prop :=
  match r with
  | FetchData d =>
      match cloudWeight d with
      | Some w => PrimFloat.ltb 0 w = true
      | None => True
      end
  | _ => True
  end.

End Component.

End App.

(* ================================================================= *)
(** ** The pharmacokinetic engine *)

(** The engine's implementation is not among the sources; every definition of
    this module is modelled from the specification.  Times, masses and
    concentrations are real numbers (the specification's "real-valued
    hours"); a division by zero, which the floating-point code would answer
    with NaN or an infinity, is an undefined result ([None]). *)

Module Engine.
Local Open Scope R_scope.

(** Modelled from the spec: the tagged kinetic-model variant of the data
    model, with the coefficients each case lists. *)
Inductive KineticModel : Type :=
| FirstOrder (ka ke F Vd : R)
| TwoPhaseDepot (kFast kSlow split ke Vd : R)
| ZeroOrder (ke Vd maxWear : R).

(** Modelled from the spec: the per-route extension handed to the
    contribution function; for a patch, its release rate and the hours
    between its application and its removal, if a removal is recorded. *)
Inductive Extras : Type :=
| NoExtras
| PatchExtras (rate : R) (removedAfter : option R).

(** Modelled from the spec: an ordered sequence of (time, concentration)
    samples. *)
Definition SimulationResult : Type := list (R * R).

(** *** 4.3 Contribution Function *)

Definition checkedDiv (x y : R) : option R :=
  if Req_dec_T y 0 then None else Some (x / y).

Definition lift2 (f : R -> R -> R) (a b : option R) : option R :=
  match a, b with
  | Some x, Some y => Some (f x y)
  | _, _ => None
  end.

(** Modelled from the spec: the single-dose formula of the first-order
    model, with its limit form when the two rate constants are equal. *)
Definition firstOrder (ka ke F Vd mass t : R) : option R :=
  if Req_dec_T ka ke
  then checkedDiv (F * mass * ka * t * exp (- ka * t)) Vd
  else checkedDiv (F * mass * ka * (exp (- ke * t) - exp (- ka * t)))
                  (Vd * (ka - ke)).

(** The same formula by direct substitution, without the limit form. *)
Definition firstOrderDirect (ka ke F Vd mass t : R) : option R :=
  checkedDiv (F * mass * ka * (exp (- ke * t) - exp (- ka * t)))
             (Vd * (ka - ke)).

(** Modelled from the spec: the weighted sum of two first-order
    contributions with the same elimination rate; the weights are [split]
    and [1 - split]. *)
Definition twoPhase (kFast kSlow split ke Vd mass t : R) : option R :=
  lift2 Rplus
    (option_map (Rmult split) (firstOrder kFast ke 1 Vd mass t))
    (option_map (Rmult (1 - split)) (firstOrder kSlow ke 1 Vd mass t)).

(** Modelled from the spec: hours during which a patch releases, from its
    application to its removal, or to the maximum wear duration when no
    removal is recorded. *)
Definition activeHours (maxWear : R) (removedAfter : option R) : R :=
  match removedAfter with
  | Some h => h
  | None => maxWear
  end.

(** Modelled from the spec: level reached after [t] hours of constant
    input. *)
Definition patchRise (ke Vd rate t : R) : option R :=
  checkedDiv (rate * (1 - exp (- ke * t))) (ke * Vd).

(** Modelled from the spec: while the patch is active the contribution rises
    towards the steady level of its release rate; afterwards it decays at the
    elimination rate from the value reached at deactivation. *)
Definition zeroOrder (ke Vd maxWear rate : R) (removedAfter : option R) (t : R)
  : option R :=
  let T := activeHours maxWear removedAfter in
  if Rle_dec t T then patchRise ke Vd rate t
  else option_map (fun c => c * exp (- ke * (t - T))) (patchRise ke Vd rate T).

(** Modelled from the spec:
    [contribution(model, equivalentMass, elapsedHours, extras)]. *)
Definition contribution (m : KineticModel) (mass elapsed : R) (x : Extras)
  : option R :=
  if Rlt_dec elapsed 0 then Some 0
  else
    match m with
    | FirstOrder ka ke F Vd => firstOrder ka ke F Vd mass elapsed
    | TwoPhaseDepot kf ks split ke Vd => twoPhase kf ks split ke Vd mass elapsed
    | ZeroOrder ke Vd maxWear =>
        match x with
        | PatchExtras rate removedAfter =>
            zeroOrder ke Vd maxWear rate removedAfter elapsed
        | NoExtras => Some 0
        end
    end.

(** The inputs the formulas are meant for: non-negative rate constants and
    fractions, a positive volume; the patch formula divides by its
    elimination rate, which is positive. *)
Definition wellFormed (m : KineticModel) : Prop :=
  match m with
  | FirstOrder ka ke F Vd => 0 <= ka /\ 0 <= ke /\ 0 <= F /\ 0 < Vd
  | TwoPhaseDepot kf ks split ke Vd =>
      0 <= kf /\ 0 <= ks /\ 0 <= split <= 1 /\ 0 <= ke /\ 0 < Vd
  | ZeroOrder ke Vd maxWear => 0 < ke /\ 0 < Vd /\ 0 <= maxWear
  end.

Definition wellFormedExtras (x : Extras) : Prop :=
  match x with
  | NoExtras => True
  | PatchExtras rate (Some h) => 0 <= rate /\ 0 <= h
  | PatchExtras rate None => 0 <= rate
  end.

(** *** 4.6 Point Query / Interpolator *)

(** Modelled from the spec: binary search; narrows [lo, hi] to two neighbouring grid positions
    around [q]. *)
Fixpoint bracket (fuel : nat) (ts : list R) (q : R) (lo hi : nat) : nat * nat :=
  match fuel with
  | O => (lo, hi)
  | S fuel' =>
      if Nat.leb (hi - lo) 1 then (lo, hi)
      else
        let mid := Nat.div2 (lo + hi) in
        if Rle_dec (nth mid ts 0) q
        then bracket fuel' ts q mid hi
        else bracket fuel' ts q lo mid
  end.

Definition firstTime (res : SimulationResult) : R := fst (hd (0, 0) res).
Definition lastTime (res : SimulationResult) : R := fst (last res (0, 0)).

(** Modelled from the spec: [at(result, queryHours)]; [None] when the query
    lies outside the range the grid covers. *)
Definition interpolateConcentration (res : SimulationResult) (q : R) : option R :=
  match res with
  | [] => None
  | _ :: _ =>
      if Rlt_dec q (firstTime res) then None
      else if Rlt_dec (lastTime res) q then None
      else
        let b := bracket (List.length res) (map fst res) q 0 (List.length res - 1) in
        let pa := nth (fst b) res (0, 0) in
        let pb := nth (snd b) res (0, 0) in
        if Req_dec_T (fst pa) (fst pb) then Some (snd pa)
        else Some (snd pa
                   + (snd pb - snd pa) * ((q - fst pa) / (fst pb - fst pa)))
  end.

(** A query time outside the range covered by the grid. *)
Definition outsideRange (res : SimulationResult) (q : R) : Prop :=
  res = [] \/ q < firstTime res \/ lastTime res < q.

End Engine.

(* ================================================================= *)
(** ** The remaining handlers of the component *)

Module Handlers.
Import JS App.

(** The configuration edited in the cloud-sync dialog. *)
Record SyncConfig : Type := mkSyncConfig {
  isEnabled : bool;
  syncUrl : string;
  username : string;
  password : string
}.

(** What [importEventsFromJson] leaves behind: the state and the returned
    flag, or a pending text waiting for its password (the flag is then
    [true] and the state is untouched). *)
Inductive ImportOutcome (S : Type) : Type :=
| Imported (st : S) (ok : bool)
| AwaitPassword.
Arguments AwaitPassword {S}.

(** What the user does next. *)
Inductive Action : Type :=
| SaveEvent (e : DoseEvent)
| DeleteEvent (ident : string) (confirmed : bool)
| ClearAllEvents (confirmed : bool)
| EditWeight (w : number)
| ImportFile (parsed : Completion value)
| SubmitPassword (decrypted : option (Completion value))
| ImportFromCloud (d : SyncData)
| ImportFlagReset
| CloudSyncSave (newEnabled : bool) (r : FetchOutcome) (confirmed : bool)
| LoadFromCloud (r : FetchOutcome)
| LoadFromCloudDone
| Poll (r : FetchOutcome)
| PersistEvents
| PersistWeight
| SyncTimerFired (now : string)
| SyncFinished
| Simulate
| ClockTick (ms : number).

Section Component.

Variable SimulationResult : Type.
Variable runSimulation : list DoseEvent -> number -> SimulationResult.
Variable RouteValues : list string.
Variable EsterValues : list string.
Variable Ester_E2 : string.
Variable uuidv4 : nat -> string.
Variable StringToNumber : string -> number.
Variable ObjectToNumber : value -> Completion number.
(** [formatDate(new Date(e.timeH * 3600000), lang)], the day an event falls
    on, as displayed. *)
Variable dateKey : DoseEvent -> string.

Abbreviation State := (AppState SimulationResult).

Definition setIsSyncing (b : bool) (st : State) : State :=
  mkAppState (events st) (weight st) (simulation st) (currentTime st)
    (syncEnabled st) b (isImporting st) (syncTimer st) (initialLoadComplete st)
    (lastLocalModification st) (drawn st).

Definition setSyncTimer (b : bool) (st : State) : State :=
  mkAppState (events st) (weight st) (simulation st) (currentTime st)
    (syncEnabled st) (isSyncing st) (isImporting st) b (initialLoadComplete st)
    (lastLocalModification st) (drawn st).

Definition setCurrentTime (ms : number) (st : State) : State :=
  mkAppState (events st) (weight st) (simulation st) ms
    (syncEnabled st) (isSyncing st) (isImporting st) (syncTimer st)
    (initialLoadComplete st) (lastLocalModification st) (drawn st).

(** *** Deleting events *)

(** [handleDeleteEvent]: the filter runs when the user confirms. *)
Definition handleDeleteEvent (ident : string) (confirmed : bool)
    (prev : list DoseEvent) : list DoseEvent :=
  if confirmed
  then filter (fun e => negb (String.eqb (id e) ident)) prev
  else prev.

(** [handleClearAllEvents]: nothing is asked when the list is empty. *)
Definition handleClearAllEvents (confirmed : bool) (st : State) : State :=
  if Nat.eqb (List.length (events st)) 0 then st
  else if confirmed then setEvents [] st else st.

(** *** Export *)

(** [handleSaveDosages]: whether the export dialog opens. *)
Definition handleSaveDosages (st : State) : bool :=
  negb (Nat.eqb (List.length (events st)) 0).

(** What [JSON.parse(JSON.stringify(v))] returns for a value inside an
    array or an object: [NaN] and the infinities are written as [null], a
    zero of either sign as [0], [undefined] as [null] in an array and not at
    all as a property; every other number, string and boolean is read back
    as it was. *)
Fixpoint jsonRoundTrip (v : value) : value :=
  match v with
  | Undefined => Null
  | Null => Null
  | Bool b => Bool b
  | Num x =>
      if isFinite x
      then (if PrimFloat.eqb x 0 then Num 0%float else Num x)
      else Null
  | Str s => Str s
  | Arr items => Arr (map jsonRoundTrip items)
  | Obj props =>
      Obj ((fix properties (ps : list (string * value)) :=
              match ps with
              | [] => []
              | (k, Undefined) :: rest => properties rest
              | (k, x) :: rest => (k, jsonRoundTrip x) :: properties rest
              end) props)
  end.

(** A stored event as the object it is. *)
Definition eventObject (e : DoseEvent) : value :=
  Obj [("id", Str (id e)); ("route", Str (route e)); ("timeH", Num (timeH e));
       ("doseMG", Num (doseMG e)); ("ester", Str (ester e));
       ("extras", extras e)].

(** [exportData] of [handleExportConfirm]; [now] is
    [new Date().toISOString()]. *)
Definition exportData (now : string) (st : State) : value :=
  Obj [("meta", Obj [("version", Num 1%float); ("exportedAt", Str now)]);
       ("weight", Num (weight st));
       ("events", Arr (map eventObject (events st)))].

(** *** Import of a file's text *)

(** [parsed.encrypted && parsed.iv && parsed.salt && parsed.data] *)
Definition looksEncrypted (parsed : value) : bool :=
  truthy (get parsed "encrypted") && truthy (get parsed "iv")
  && truthy (get parsed "salt") && truthy (get parsed "data").

(** [importEventsFromJson]; [parsed] is the completion of
    [JSON.parse(text)].  Reading a property of [null] throws, which the
    handler catches like a parse error. *)
Definition importEventsFromJson (parsed : Completion value) (st : State)
  : ImportOutcome State :=
  match parsed with
  | Thrown _ => Imported st false
  | Normal Null => Imported st false
  | Normal Undefined => Imported st false
  | Normal v =>
      if looksEncrypted v then AwaitPassword
      else
        let r := processImportedData RouteValues EsterValues Ester_E2 uuidv4
                   StringToNumber ObjectToNumber v st in
        Imported (fst r) (snd r)
  end.

(** [handlePasswordSubmit] with a pending text; [decrypted] is [None] when
    [decryptData] gives nothing, and otherwise the completion of
    [JSON.parse] on the decrypted text. *)
Definition handlePasswordSubmit (decrypted : option (Completion value))
    (st : State) : State :=
  match decrypted with
  | Some (Normal v) =>
      fst (processImportedData RouteValues EsterValues Ester_E2 uuidv4
             StringToNumber ObjectToNumber v st)
  | Some (Thrown _) => st
  | None => st
  end.

(** *** Upload *)

(** [syncDataToCloud], up to its [await]: the state it leaves and the
    payload it uploads, if any; [now] is [new Date().toISOString()]. *)
Definition syncDataToCloud (now : string) (st : State)
  : State * option SyncData :=
  if isImporting st then (st, None)
  else if negb (syncEnabled st) then (st, None)
  else if Nat.eqb (List.length (events st)) 0 && negb (initialLoadComplete st)
  then (st, None)
  else (setLastLocalModification now (setIsSyncing true st),
        Some (mkSyncData (Some now) (Some (weight st)) (Some (events st)))).

(** Every way [syncDataToCloud] ends after the upload clears the flag. *)
Definition syncFinished (st : State) : State := setIsSyncing false st.

(** The effects that store events and weight arm the debounce timer; no code
    ever empties [syncTimerRef.current] again. *)
Definition persistEffect (st : State) : State := setSyncTimer true st.

(** The timers that reset [isImportingRef] after a cloud import or a poll. *)
Definition importFlagReset (st : State) : State := setIsImporting false st.

(** *** One step of the component *)

Definition step (a : Action) (st : State) : State :=
  match a with
  | SaveEvent e => setEvents (handleSaveEvent e (events st)) st
  | DeleteEvent ident confirmed =>
      setEvents (handleDeleteEvent ident confirmed (events st)) st
  | ClearAllEvents confirmed => handleClearAllEvents confirmed st
  | EditWeight w => setWeight w st
  | ImportFile parsed =>
      match importEventsFromJson parsed st with
      | Imported st' _ => st'
      | AwaitPassword => st
      end
  | SubmitPassword decrypted => handlePasswordSubmit decrypted st
  | ImportFromCloud d => handleImportFromCloud d st
  | ImportFlagReset => importFlagReset st
  | CloudSyncSave b r c => handleCloudSyncSave b r c st
  | LoadFromCloud r => loadFromCloud r st
  | LoadFromCloudDone => loadFromCloudDone st
  | Poll r => pollInterval st r st
  | PersistEvents => persistEffect st
  | PersistWeight => persistEffect st
  | SyncTimerFired now => fst (syncDataToCloud now st)
  | SyncFinished => syncFinished st
  | Simulate => simulationEffect runSimulation st
  | ClockTick ms => setCurrentTime ms st
  end.

Definition steps (l : list Action) (st : State) : State :=
  fold_left (fun s a => step a s) l st.

(** *** Timeline groups *)

(** [sort((a, b) => b.timeH - a.timeH)], as a stable insertion: [x] goes
    before the first [y] with [y.timeH - x.timeH < 0]. *)
Fixpoint insertByTime (x : DoseEvent) (l : list DoseEvent) : list DoseEvent :=
  match l with
  | [] => [x]
  | y :: rest =>
      if PrimFloat.ltb (timeH y - timeH x)%float 0%float
      then x :: y :: rest
      else y :: insertByTime x rest
  end.

Definition sortByTime (l : list DoseEvent) : list DoseEvent :=
  fold_left (fun acc x => insertByTime x acc) l [].

(** [if (!groups[d]) groups[d] = []; groups[d].push(e)], on the groups in
    the order their keys were created. *)
Fixpoint pushGroup (d : string) (e : DoseEvent)
    (groups : list (string * list DoseEvent)) : list (string * list DoseEvent) :=
  match groups with
  | [] => [(d, [e])]
  | (k, es) :: rest =>
      if String.eqb k d then (k, es ++ [e]) :: rest
      else (k, es) :: pushGroup d e rest
  end.

Definition groupedEvents (evs : list DoseEvent)
  : list (string * list DoseEvent) :=
  fold_left (fun groups e => pushGroup (dateKey e) e groups) (sortByTime evs) [].

(** A group of the timeline that is not empty and holds only events of its
    own day. *)
Definition groupOk (kv : string * list DoseEvent) : Prop :=
  snd kv <> [] /\ Forall (fun e => dateKey e = fst kv) (snd kv).

(** *** The cloud-sync dialog *)

(** [!config.syncUrl || !config.username || !config.password] *)
Definition fieldsMissing (cfg : SyncConfig) : bool :=
  negb (truthyStr (syncUrl cfg)) || negb (truthyStr (username cfg))
  || negb (truthyStr (password cfg)).

(** The dialog's [handleImportFromCloud]: what it does to the component
    through [onImportFromCloud]. *)
Definition dialogImportFromCloud (cfg : SyncConfig) (r : FetchOutcome)
    (confirmed : bool) (st : State) : State :=
  if fieldsMissing cfg then st
  else
    match r with
    | FetchData d => if confirmed then handleImportFromCloud d st else st
    | _ => st
    end.

(** The dialog's [handleSave]: [onSave(config)], whose fetch answers [r]. *)
Definition dialogSave (cfg : SyncConfig) (r : FetchOutcome) (confirmed : bool)
    (st : State) : State :=
  handleCloudSyncSave (isEnabled cfg) r confirmed st.

(** *** Well-formed stored events *)

(** An event as [sanitizeImportedEvents] builds them: a known route and
    ester, finite time and dose, an object for its extras. *)
Definition validEvent (e : DoseEvent) : Prop :=
  In (route e) RouteValues
  /\ In (ester e) EsterValues
  /\ isFinite (timeH e) = true
  /\ isFinite (doseMG e) = true
  /\ (truthy (extras e) && typeofObject (extras e) = true).

End Component.

End Handlers.

(* ================================================================= *)
(** ** Sample inputs *)

Module Samples.

(** The route names of the data model, two ester names, and stand-ins for
    the runtime conversions (no sample converts a string or an object). *)
Definition routes : list string :=
  ["injection"; "oral"; "sublingual"; "gel"; "patchApply"; "patchRemove"].
Definition esters : list string := ["E2"; "EV"].
Definition uuid (n : nat) : string := nth n ["id-0"; "id-1"; "id-2"] "id-n".
Definition stringToNumber (s : string) : JS.number := PrimFloat.nan.
Definition objectToNumber (v : JS.value) : JS.Completion JS.number :=
  JS.Normal PrimFloat.nan.

(** [[{"id": "a", "route": "injection", "timeH": 0, "doseMG": -5}]] *)
Definition negativeDoseFile : JS.value :=
  JS.Arr [JS.Obj [("id", JS.Str "a"); ("route", JS.Str "injection");
                  ("timeH", JS.Num 0%float); ("doseMG", JS.Num (-5)%float)]].

Definition negativeDoseEvent : App.DoseEvent :=
  App.mkDoseEvent "a" "injection" 0%float (-5)%float "E2" (JS.Obj []).

(** A component state with sync enabled and nothing pending. *)
Definition idleState : App.AppState unit :=
  App.mkAppState [] 70.0%float None 0%float true false false false true
    "2026-01-01T00:00:00.000Z" 0.

(** A cloud payload newer than [idleState], with a negative weight. *)
Definition negativeWeightPayload : App.SyncData :=
  App.mkSyncData (Some "2026-02-01T00:00:00.000Z") (Some (-5)%float) (Some []).

End Samples.

(** Further sample inputs: one stored dose, an edit of it, and a state that
    holds it with sync enabled and the initial load complete. *)
Module MoreSamples.

Definition doseA : App.DoseEvent :=
  App.mkDoseEvent "a" "injection" 10%float 2%float "EV" (JS.Obj []).

Definition doseA' : App.DoseEvent :=
  App.mkDoseEvent "a" "injection" 12%float 4%float "EV" (JS.Obj []).

Definition oneDoseState : App.AppState unit :=
  App.mkAppState [doseA] 70.0%float None 0%float true false false false true
    "2026-01-01T00:00:00.000Z" 0.

Definition uploadTime : string := "2026-03-01T00:00:00.000Z".

(** [[{"route": "oral", "timeH": null}]], and the event it is turned into. *)
Definition nullTimeFile : JS.value :=
  JS.Arr [JS.Obj [("route", JS.Str "oral"); ("timeH", JS.Null)]].

Definition nullTimeEvent : App.DoseEvent :=
  App.mkDoseEvent "id-0" "oral" 0%float 0%float "E2" (JS.Obj []).

Definition uploadedPayload : App.SyncData :=
  App.mkSyncData (Some uploadTime) (Some 70.0%float) (Some [doseA]).

End MoreSamples.

(* ================================================================= *)
(** ** Properties of the application component *)

Unset Implicit Arguments.

Section AppProperties.
Import JS App.

Variable SimulationResult : Type.
Variable runSimulation : list DoseEvent -> number -> SimulationResult.
Variable interpolateConcentration : SimulationResult -> number -> option number.
Variable RouteValues : list string.
Variable EsterValues : list string.
Variable Ester_E2 : string.
Variable uuidv4 : nat -> string.
Variable StringToNumber : string -> number.
Variable ObjectToNumber : value -> Completion number.

Abbreviation State := (AppState SimulationResult).
Abbreviation sanitizeItem' :=
    (sanitizeItem RouteValues EsterValues Ester_E2 uuidv4 StringToNumber ObjectToNumber).
Abbreviation mapItems' :=
    (mapItems RouteValues EsterValues Ester_E2 uuidv4 StringToNumber ObjectToNumber).
Abbreviation sanitize' :=
    (sanitizeImportedEvents RouteValues EsterValues Ester_E2 uuidv4
       StringToNumber ObjectToNumber).
Abbreviation kept' := (kept RouteValues StringToNumber ObjectToNumber).
Abbreviation sanitizedFrom' :=
  (sanitizedFrom RouteValues StringToNumber ObjectToNumber).

  (** *** handleSaveEvent *)

Lemma find_sameId_none (e : DoseEvent) (prev : list DoseEvent) :
    find (sameId e) prev = None <-> (forall p, In p prev -> id p <> id e).
  Proof.
    split.
    - intros H p Hp Heq.
      apply (find_none _ _ H) in Hp.
      unfold sameId in Hp. rewrite Heq, String.eqb_refl in Hp. discriminate.
    - intros H. induction prev as [|p prev IH]; simpl; [reflexivity|].
      destruct (sameId e p) eqn:E.
      + unfold sameId in E. apply String.eqb_eq in E.
        exfalso. apply (H p); [now left | exact E].
      + apply IH. intros q Hq. apply H. now right.
  Qed.

Lemma map_replace_nth (e : DoseEvent) (prev : list DoseEvent) i p :
    nth_error prev i = Some p ->
    nth_error (map (fun q => if sameId e q then e else q) prev) i
    = Some (if String.eqb (id p) (id e) then e else p).
  Proof.
    intros H. rewrite nth_error_map, H. reflexivity.
  Qed.

Lemma map_replace_others (e : DoseEvent) (prev : list DoseEvent) :
    filter (fun p => negb (sameId e p))
      (map (fun q => if sameId e q then e else q) prev)
    = filter (fun p => negb (sameId e p)) prev.
  Proof.
    induction prev as [|p prev IH]; simpl; [reflexivity|].
    destruct (sameId e p) eqn:E; simpl.
    - unfold sameId at 1. rewrite String.eqb_refl. simpl. exact IH.
    - rewrite E. simpl. now rewrite IH.
  Qed.

Lemma append_others (e : DoseEvent) (prev : list DoseEvent) :
    filter (fun p => negb (sameId e p)) (prev ++ [e])
    = filter (fun p => negb (sameId e p)) prev.
  Proof.
    rewrite filter_app. simpl. unfold sameId at 2.
    rewrite String.eqb_refl. simpl. apply app_nil_r.
  Qed.

  (** C9.  [handleSaveEvent e prev]: when some stored event carries the id of
      [e], every such event is replaced by [e] where it stands and the length
      is kept; when none does, [e] is appended at the end; in both cases the
      events with another id keep their value, their index and their relative
      order. *)
Theorem C9_handleSaveEvent_frame (e : DoseEvent) (prev : list DoseEvent) :
    let next := handleSaveEvent e prev in
    ((exists p, In p prev /\ id p = id e) ->
       List.length next = List.length prev /\
       forall i p, nth_error prev i = Some p ->
         nth_error next i = Some (if String.eqb (id p) (id e) then e else p))
    /\ ((forall p, In p prev -> id p <> id e) -> next = prev ++ [e])
    /\ (forall i p, nth_error prev i = Some p -> id p <> id e ->
          nth_error next i = Some p)
    /\ filter (fun p => negb (String.eqb (id p) (id e))) next
       = filter (fun p => negb (String.eqb (id p) (id e))) prev.
  Proof.
    unfold handleSaveEvent.
    destruct (find (sameId e) prev) as [q|] eqn:F.
    - repeat split.
      + apply length_map.
      + intros i p Hp. now apply map_replace_nth.
      + intros Hnone. apply find_sameId_none in Hnone. congruence.
      + intros i p Hp Hne. rewrite (map_replace_nth e prev i p Hp).
        destruct (String.eqb_spec (id p) (id e)); [contradiction | reflexivity].
      + apply map_replace_others.
    - repeat split.
      + destruct H as [p [Hp Heq]].
        exfalso. exact (proj1 (find_sameId_none e prev) F p Hp Heq).
      + destruct H as [p [Hp Heq]].
        exfalso. exact (proj1 (find_sameId_none e prev) F p Hp Heq).
      + intros i p Hp _. rewrite nth_error_app1; [exact Hp|].
        apply nth_error_Some. congruence.
      + apply append_others.
  Qed.

(** *** sanitizeImportedEvents *)

Lemma includes_some (vals : list string) (v : value) (s : string) :
  includes vals v = Some s -> v = Str s /\ In s vals.
Proof.
  destruct v; simpl; try discriminate.
  destruct (existsb (String.eqb s0) vals) eqn:E; [|discriminate].
  intros H; inversion H; subst. split; [reflexivity|].
  apply existsb_exists in E. destruct E as [x [Hx Heq]].
  apply String.eqb_eq in Heq. now subst.
Qed.

Lemma isFinite_zero : isFinite 0%float = true.
Proof. reflexivity. Qed.

Lemma sanitizeItem_spec (item : value) (n : nat) o n' :
  sanitizeItem' item n = Normal (o, n') ->
  match o with
  | Some e => kept' item = true /\ sanitizedFrom' item e
  | None => kept' item = false
  end.
Proof.
  unfold sanitizeItem, kept, sanitizedFrom.
  destruct (truthy item); simpl;
    [|intros H; inversion H; reflexivity].
  destruct (typeofObject item); simpl;
    [|intros H; inversion H; reflexivity].
  destruct (includes RouteValues (get item "route")) as [r|] eqn:R;
    [|intros H; inversion H; reflexivity].
  apply includes_some in R. destruct R as [Rv Rin].
  destruct (Number StringToNumber ObjectToNumber (get item "timeH"))
    as [t|msg] eqn:T; simpl; [|discriminate].
  destruct (isFinite t) eqn:Ft; simpl;
    [|intros H; inversion H; reflexivity].
  destruct (Number StringToNumber ObjectToNumber (get item "doseMG"))
    as [d|msg] eqn:D; simpl; [|discriminate].
  destruct (match get item "id" with Str s => (s, n) | _ => (uuidv4 n, S n) end)
    as [ident k].
  intros H; inversion H; subst; simpl.
  repeat split; auto.
  - destruct (isFinite d) eqn:Fd; [exact Fd | exact isFinite_zero].
  - exists d. split; reflexivity.
Qed.

Lemma mapItems_spec (items : list value) : forall n os n',
  mapItems' items n = Normal (os, n') ->
  Forall2 sanitizedFrom' (filter kept' items) (filterNotNull os).
Proof.
  induction items as [|item rest IH]; intros n os n'; simpl.
  - intros H; inversion H; subst. constructor.
  - destruct (sanitizeItem' item n) as [[o k]|msg] eqn:S1; simpl; [|discriminate].
    destruct (mapItems' rest k) as [[os' k']|msg] eqn:S2; simpl; [|discriminate].
    intros H; inversion H; subst.
    apply sanitizeItem_spec in S1. apply IH in S2.
    destruct o as [e|].
    + destruct S1 as [K F]. rewrite K. simpl. now constructor.
    + rewrite S1. exact S2.
Qed.


(** *** Current level with no events *)

(** C5.  With an empty event list the simulation effect stores no simulation
    and the displayed current level is 0. *)
Theorem C5_empty_events_level_zero (st : State) :
  simulation (simulationEffect runSimulation (setEvents [] st)) = None
  /\ currentLevel interpolateConcentration
       (simulationEffect runSimulation (setEvents [] st)) = 0%float.
Proof.
  split; reflexivity.
Qed.

(** The simulation kept by the effect depends on the events and the weight
    only, not on the rest of the component state. *)
Lemma simulationEffect_depends_on_inputs (s1 s2 : State) :
  events s1 = events s2 -> weight s1 = weight s2 ->
  simulation (simulationEffect runSimulation s1)
  = simulation (simulationEffect runSimulation s2).
Proof.
  intros He Hw. unfold simulationEffect. rewrite He, Hw.
  destruct (Nat.ltb 0 (List.length (events s2))); reflexivity.
Qed.

(** *** Cloud polling *)

Lemma stamp_some (d : SyncData) (s : string) :
  stamp d = Some s -> exportedAt d = Some s.
Proof.
  unfold stamp. destruct (exportedAt d) as [x|]; [|discriminate].
  destruct (truthyStr x); [|discriminate]. now intros H; inversion H.
Qed.

(** The two outcomes of a poll tick. *)
Lemma pollInterval_cases (started : State) (r : FetchOutcome) (st : State) :
  pollInterval started r st = st
  \/ exists d s,
       r = FetchData d
       /\ stamp d = Some s
       /\ strGt s (lastLocalModification st) = true
       /\ pollInterval started r st
          = setLastLocalModification s
              (setWeight (orDefaultWeight (cloudWeight d))
                 (setEvents (orEmpty (cloudEvents d))
                    (setIsImporting true st))).
Proof.
  unfold pollInterval, pollResume.
  destruct (isImporting started || isSyncing started); [now left|].
  destruct (syncTimer started); [now left|].
  destruct r as [| |d]; try now left.
  destruct (stamp d) as [s|] eqn:S; [|now left].
  destruct (strGt s (lastLocalModification st)) eqn:G; [|now left].
  right. exists d, s. repeat split; auto.
Qed.

(** With the guards clear and a newer payload the tick does overwrite. *)
Lemma pollInterval_newer (started : State) (d : SyncData) (s : string) (st : State) :
  isImporting started = false -> isSyncing started = false ->
  syncTimer started = false ->
  stamp d = Some s -> strGt s (lastLocalModification st) = true ->
  events (pollInterval started (FetchData d) st) = orEmpty (cloudEvents d)
  /\ weight (pollInterval started (FetchData d) st)
     = orDefaultWeight (cloudWeight d)
  /\ lastLocalModification (pollInterval started (FetchData d) st) = s.
Proof.
  intros H1 H2 H3 S G. unfold pollInterval, pollResume.
  rewrite H1, H2, H3, S, G. simpl. repeat split.
Qed.

(** C10.  A run of the polling callback either leaves the whole state as it
    was, or the fetched payload carries an [exportedAt] string strictly
    greater than the recorded local modification time, and then events and
    weight are taken from the payload. *)
Theorem C10_poll_overwrites_only_when_newer
    (started : State) (r : FetchOutcome) (st : State) :
  pollInterval started r st = st
  \/ exists d s,
       r = FetchData d
       /\ exportedAt d = Some s
       /\ strGt s (lastLocalModification st) = true
       /\ events (pollInterval started r st) = orEmpty (cloudEvents d)
       /\ weight (pollInterval started r st) = orDefaultWeight (cloudWeight d).
Proof.
  destruct (pollInterval_cases started r st) as [E|(d & s & E & S & G & P)];
    [now left|].
  right. exists d, s. apply stamp_some in S. rewrite P. repeat split; auto.
Qed.

(** *** Weight updates *)

Lemma importedWeight_positive (parsed : value) (w : number) :
  importedWeight parsed = Some w -> PrimFloat.ltb 0 w = true.
Proof.
  unfold importedWeight. destruct (get parsed "weight"); try discriminate.
  destruct (PrimFloat.ltb 0 x) eqn:P; [|discriminate].
  now intros H; inversion H; subst.
Qed.

Lemma readImportedData_weight (parsed : value) (n : nat) es w n' :
  readImportedData RouteValues EsterValues Ester_E2 uuidv4 StringToNumber
    ObjectToNumber parsed n = Normal (es, Some w, n') ->
  PrimFloat.ltb 0 w = true.
Proof.
  unfold readImportedData.
  assert (G : forall (c : Completion (list DoseEvent * option number * nat)),
             (forall es0 w0 k, c = Normal (es0, Some w0, k) ->
                               PrimFloat.ltb 0 w0 = true) ->
             bind c (fun r => let '(newEvents, newWeight, k) := r in
               if Nat.eqb (List.length newEvents) 0 && falsyWeight newWeight
               then Thrown "No valid entries"
               else Normal (newEvents, newWeight, k))
             = Normal (es, Some w, n') -> PrimFloat.ltb 0 w = true).
  { intros c Hc. destruct c as [[[es0 w0] k]|msg]; simpl; [|discriminate].
    destruct (Nat.eqb (List.length es0) 0 && falsyWeight w0); [discriminate|].
    intros H; inversion H; subst. eapply Hc. reflexivity. }
  apply G. intros es0 w0 k.
  destruct parsed; try (simpl; discriminate).
  - destruct (sanitize' (Arr items) n) as [[ev j]|msg]; simpl; discriminate.
  - destruct (if isArray (get (Obj props) "events")
              then sanitize' (get (Obj props) "events") n
              else Normal ([], n)) as [[ev j]|msg]; simpl; [|discriminate].
    intros H; inversion H; subst.
    eapply importedWeight_positive; eassumption.
Qed.

(** What each path stores as weight: a file import keeps the weight or
    stores a number strictly greater than 0; a cloud path keeps the weight or
    stores the payload's weight, 70 when the payload has none. *)
Lemma weight_update_paths :
  (forall parsed (st : State),
      let st' := fst (processImportedData RouteValues EsterValues Ester_E2
                        uuidv4 StringToNumber ObjectToNumber parsed st) in
      weight st' = weight st \/ PrimFloat.ltb 0 (weight st') = true)
  /\ (forall r (st : State),
        weight (loadFromCloud r st) = weight st
        \/ exists d, r = FetchData d
             /\ weight (loadFromCloud r st) = orDefaultWeight (cloudWeight d))
  /\ (forall b r c (st : State),
        weight (handleCloudSyncSave b r c st) = weight st
        \/ exists d, r = FetchData d
             /\ weight (handleCloudSyncSave b r c st)
                = orDefaultWeight (cloudWeight d))
  /\ (forall d (st : State),
        weight (handleImportFromCloud d st) = orDefaultWeight (cloudWeight d))
  /\ (forall started r (st : State),
        weight (pollInterval started r st) = weight st
        \/ exists d, r = FetchData d
             /\ weight (pollInterval started r st)
                = orDefaultWeight (cloudWeight d))
  /\ PrimFloat.ltb 0 (orDefaultWeight None) = true
  /\ (forall w, PrimFloat.ltb 0 (orDefaultWeight (Some w)) = PrimFloat.ltb 0 w).
Proof.
  repeat split.
  - intros parsed st. unfold processImportedData.
    destruct (readImportedData _ _ _ _ _ _ parsed (drawn st))
      as [[[es w] k]|msg] eqn:R; simpl; [|now left].
    destruct w as [w|].
    + right. destruct (Nat.ltb 0 (List.length es)); simpl;
        eapply readImportedData_weight; eassumption.
    + left. destruct (Nat.ltb 0 (List.length es)); reflexivity.
  - intros r st. unfold loadFromCloud.
    destruct (syncEnabled st); simpl; [|now left].
    destruct r as [| |d]; try now left.
    destruct (cloudEvents d) as [[|e es]|].
    + destruct (stamp d); [right; exists d; now split | now left].
    + right. exists d. split; [reflexivity|].
      unfold recordStamp. destruct (stamp d); reflexivity.
    + destruct (stamp d); [right; exists d; now split | now left].
  - intros b r c st. unfold handleCloudSyncSave.
    destruct (negb (syncEnabled st) && b); [|now left].
    destruct r as [| |d]; try now left.
    destruct c; [|now left].
    right. exists d. split; [reflexivity|].
    unfold recordStamp. destruct (stamp d); reflexivity.
  - intros d st. unfold handleImportFromCloud, recordStamp.
    destruct (stamp d); reflexivity.
  - intros started r st.
    destruct (pollInterval_cases started r st) as [E|(d & s & E & _ & _ & P)].
    + left. now rewrite E.
    + right. exists d. rewrite P. now split.
Qed.

Lemma orDefaultWeight_positive (d : SyncData) :
  payloadWeightPositive (FetchData d) ->
  PrimFloat.ltb 0 (orDefaultWeight (cloudWeight d)) = true.
Proof.
  unfold payloadWeightPositive. destruct (cloudWeight d); auto.
Qed.


End AppProperties.

(* ================================================================= *)
(** ** Properties of the engine model *)

Section EngineProperties.
Import Engine.
Local Open Scope R_scope.

(** *** Arithmetic *)

Lemma exp_le_mono (a b : R) : a <= b -> exp a <= exp b.
Proof.
  intros [H|H]; [left; now apply exp_increasing | subst; right; reflexivity].
Qed.

Lemma exp_neg_le_1 (k t : R) : 0 <= k -> 0 <= t -> exp (- k * t) <= 1.
Proof.
  intros Hk Ht. rewrite <- exp_0. apply exp_le_mono. nra.
Qed.

Lemma checkedDiv_defined (x y : R) :
  y <> 0 -> checkedDiv x y = Some (x / y).
Proof.
  intros H. unfold checkedDiv. now destruct (Req_dec_T y 0).
Qed.

Lemma checkedDiv_zero (x : R) : checkedDiv x 0 = None.
Proof.
  unfold checkedDiv. now destruct (Req_dec_T 0 0).
Qed.

Lemma div_nonneg (x y : R) : 0 <= x -> 0 < y -> 0 <= x / y.
Proof.
  intros Hx Hy. unfold Rdiv. apply Rmult_le_pos; [exact Hx|].
  left. now apply Rinv_0_lt_compat.
Qed.

Lemma div_nonpos_neg (x y : R) : x <= 0 -> y < 0 -> 0 <= x / y.
Proof.
  intros Hx Hy.
  replace (x / y) with ((- x) / (- y)) by (field; lra).
  apply div_nonneg; lra.
Qed.

(** *** The three formulas are defined and non-negative *)

Lemma firstOrder_equal_rates (k F Vd mass t : R) :
  Vd <> 0 ->
  firstOrder k k F Vd mass t = Some (F * mass * k * t * exp (- k * t) / Vd).
Proof.
  intros HV. unfold firstOrder.
  destruct (Req_dec_T k k) as [_|N]; [|contradiction].
  now apply checkedDiv_defined.
Qed.

(** Direct substitution at equal rate constants divides by zero. *)
Lemma firstOrderDirect_equal_rates (k F Vd mass t : R) :
  firstOrderDirect k k F Vd mass t = None.
Proof.
  unfold firstOrderDirect.
  replace (Vd * (k - k)) with 0 by ring. apply checkedDiv_zero.
Qed.

Lemma firstOrder_nonneg (ka ke F Vd mass t : R) :
  0 <= ka -> 0 <= ke -> 0 <= F -> 0 < Vd -> 0 <= mass -> 0 <= t ->
  exists c, firstOrder ka ke F Vd mass t = Some c /\ 0 <= c.
Proof.
  intros Hka Hke HF HV Hm Ht. unfold firstOrder.
  pose proof (exp_pos (- ka * t)) as Ea.
  assert (Hp : 0 <= F * mass * ka).
  { apply Rmult_le_pos; [apply Rmult_le_pos|]; assumption. }
  destruct (Req_dec_T ka ke) as [E|N].
  - rewrite checkedDiv_defined by lra.
    eexists; split; [reflexivity|].
    apply div_nonneg; [|exact HV].
    apply Rmult_le_pos; [apply Rmult_le_pos|]; [exact Hp | exact Ht | lra].
  - assert (D : Vd * (ka - ke) <> 0).
    { intros Z. apply Rmult_integral in Z. destruct Z; lra. }
    rewrite checkedDiv_defined by exact D.
    eexists; split; [reflexivity|].
    destruct (Rlt_le_dec ke ka) as [L|L].
    + apply div_nonneg; [|nra].
      apply Rmult_le_pos; [exact Hp|].
      assert (exp (- ka * t) <= exp (- ke * t)) by (apply exp_le_mono; nra).
      lra.
    + apply div_nonpos_neg; [|nra].
      assert (exp (- ke * t) <= exp (- ka * t)) by (apply exp_le_mono; nra).
      nra.
Qed.

Lemma twoPhase_nonneg (kf ks split ke Vd mass t : R) :
  0 <= kf -> 0 <= ks -> 0 <= split <= 1 -> 0 <= ke -> 0 < Vd ->
  0 <= mass -> 0 <= t ->
  exists c, twoPhase kf ks split ke Vd mass t = Some c /\ 0 <= c.
Proof.
  intros Hkf Hks Hs Hke HV Hm Ht. unfold twoPhase.
  destruct (firstOrder_nonneg kf ke 1 Vd mass t) as [a [Ea Ha]]; try lra.
  destruct (firstOrder_nonneg ks ke 1 Vd mass t) as [b [Eb Hb]]; try lra.
  rewrite Ea, Eb. simpl.
  eexists; split; [reflexivity|]. nra.
Qed.

Lemma patchRise_nonneg (ke Vd rate t : R) :
  0 < ke -> 0 < Vd -> 0 <= rate -> 0 <= t ->
  exists c, patchRise ke Vd rate t = Some c /\ 0 <= c.
Proof.
  intros Hke HV Hr Ht. unfold patchRise.
  rewrite checkedDiv_defined by nra.
  eexists; split; [reflexivity|].
  apply div_nonneg; [|nra].
  pose proof (exp_neg_le_1 ke t). nra.
Qed.

Lemma activeHours_nonneg (maxWear : R) (removedAfter : option R) :
  0 <= maxWear ->
  match removedAfter with Some h => 0 <= h | None => True end ->
  0 <= activeHours maxWear removedAfter.
Proof.
  intros Hm Hh. unfold activeHours. destruct removedAfter as [h|]; assumption.
Qed.

Lemma zeroOrder_nonneg (ke Vd maxWear rate : R) (removedAfter : option R) (t : R) :
  0 < ke -> 0 < Vd -> 0 <= maxWear -> 0 <= rate ->
  match removedAfter with Some h => 0 <= h | None => True end ->
  0 <= t ->
  exists c, zeroOrder ke Vd maxWear rate removedAfter t = Some c /\ 0 <= c.
Proof.
  intros Hke HV Hm Hr Hh Ht. unfold zeroOrder.
  pose proof (activeHours_nonneg maxWear removedAfter Hm Hh) as HT.
  destruct (Rle_dec t (activeHours maxWear removedAfter)) as [L|L].
  - now apply patchRise_nonneg.
  - destruct (patchRise_nonneg ke Vd rate (activeHours maxWear removedAfter))
      as [c [Ec Hc]]; try assumption.
    rewrite Ec. simpl. eexists; split; [reflexivity|].
    apply Rmult_le_pos; [exact Hc|]. left. apply exp_pos.
Qed.

(** On well-formed inputs (non-negative rates, fractions and mass, a
    positive volume, a positive elimination rate for the patch model) and a
    non-negative elapsed time the contribution is defined and non-negative,
    and at equal rate constants the first-order value is the limit form. *)
Lemma contribution_nonneg_on_well_formed (m : KineticModel) (mass t : R) (x : Extras) :
  wellFormed m -> wellFormedExtras x -> 0 <= mass -> 0 <= t ->
  (exists c, contribution m mass t x = Some c /\ 0 <= c)
  /\ (forall k F Vd, m = FirstOrder k k F Vd ->
        contribution m mass t x
        = Some (F * mass * k * t * exp (- k * t) / Vd)).
Proof.
  intros Hm Hx Hmass Ht. unfold contribution.
  destruct (Rlt_dec t 0) as [N|_]; [lra|].
  split.
  - destruct m as [ka ke F Vd | kf ks split ke Vd | ke Vd maxWear]; simpl in Hm.
    + destruct Hm as (? & ? & ? & ?). now apply firstOrder_nonneg.
    + destruct Hm as (? & ? & ? & ? & ?). now apply twoPhase_nonneg.
    + destruct Hm as (? & ? & ?).
      destruct x as [|rate [h|]]; simpl in Hx.
      * exists 0. split; [reflexivity | lra].
      * destruct Hx. now apply zeroOrder_nonneg.
      * now apply zeroOrder_nonneg.
  - intros k F Vd E. subst m. simpl in Hm.
    apply firstOrder_equal_rates. lra.
Qed.

(** With a zero volume the first-order formula divides by zero. *)
Lemma contribution_zero_volume_undefined (ka ke F mass t : R) (x : Extras) :
  0 <= t -> contribution (FirstOrder ka ke F 0) mass t x = None.
Proof.
  intros Ht. unfold contribution, firstOrder.
  destruct (Rlt_dec t 0) as [N|_]; [lra|].
  destruct (Req_dec_T ka ke); [apply checkedDiv_zero|].
  replace (0 * (ka - ke)) with 0 by ring. apply checkedDiv_zero.
Qed.

(** C3.  For every kinetic model, mass and extension, a strictly negative
    elapsed time gives the contribution 0. *)
Theorem C3_contribution_before_event (m : KineticModel) (mass t : R) (x : Extras) :
  t < 0 -> contribution m mass t x = Some 0.
Proof.
  intros H. unfold contribution.
  destruct (Rlt_dec t 0) as [_|N]; [reflexivity | contradiction].
Qed.

(** *** Interpolator *)

(** C4.  A query time outside the range covered by the grid (before its
    first sample, after its last one, or any time when the grid is empty)
    gets no value from the interpolator. *)
Theorem C4_interpolate_outside_none (res : SimulationResult) (q : R) :
  outsideRange res q -> interpolateConcentration res q = None.
Proof.
  unfold outsideRange, interpolateConcentration.
  destruct res as [|s rest]; [reflexivity|].
  intros [E|[B|A]]; [discriminate| |].
  - destruct (Rlt_dec q (firstTime (s :: rest))); [reflexivity | contradiction].
  - destruct (Rlt_dec q (firstTime (s :: rest))); [reflexivity|].
    destruct (Rlt_dec (lastTime (s :: rest)) q); [reflexivity | contradiction].
Qed.

(** Inside the covered range the interpolator does return a value. *)
Lemma interpolate_inside_some (res : SimulationResult) (q : R) :
  res <> [] -> firstTime res <= q <= lastTime res ->
  exists c, interpolateConcentration res q = Some c.
Proof.
  intros Hne [Hlo Hhi]. unfold interpolateConcentration.
  destruct res as [|s rest]; [contradiction|].
  destruct (Rlt_dec q (firstTime (s :: rest))); [lra|].
  destruct (Rlt_dec (lastTime (s :: rest)) q); [lra|].
  match goal with |- context [Req_dec_T ?a ?b] => destruct (Req_dec_T a b) end;
    eexists; reflexivity.
Qed.

End EngineProperties.

(* ================================================================= *)
(** ** Concrete instances *)

Section Instances.
Import JS App Samples.



(** An entry whose [timeH] is [null] and that has no dose is kept: both are
    converted, to 0. *)
Lemma sanitize_converts_null_time_and_missing_dose :
  sanitizeImportedEvents routes esters "E2" uuid stringToNumber objectToNumber
    MoreSamples.nullTimeFile 0
  = Normal ([MoreSamples.nullTimeEvent], 1).
Proof. reflexivity. Qed.



End Instances.

Section EngineInstances.
Import Engine Samples.
Local Open Scope R_scope.

(** C3, instance: one hour before the dose. *)
Lemma C3_contribution_before_event_witness :
  -1 < 0 /\ contribution (FirstOrder 2 1 1 1) 1 (-1) NoExtras = Some 0.
Proof.
  split; [lra|].
  apply (C3_contribution_before_event (FirstOrder 2 1 1 1) 1 (-1) NoExtras).
  lra.
Defined.

(** C4, instance: a query after the last sample of a two-point grid. *)
Lemma C4_interpolate_outside_none_witness :
  outsideRange [(0, 0); (1, 1)] 2
  /\ interpolateConcentration [(0, 0); (1, 1)] 2 = None.
Proof.
  assert (H : outsideRange [(0, 0); (1, 1)] 2).
  { right; right. unfold lastTime. simpl. lra. }
  split; [exact H|].
  apply (C4_interpolate_outside_none [(0, 0); (1, 1)] 2 H).
Defined.

End EngineInstances.

(* ================================================================= *)
(** ** Further properties of the component *)

Section EditingProperties.
Import JS App Handlers.

(** *** Saving and deleting events *)

Lemma sameId_congr (e1 e2 p : DoseEvent) :
  id e1 = id e2 -> sameId e2 p = sameId e1 p.
Proof. intros H. unfold sameId. now rewrite H. Qed.

Lemma find_sameId_congr (e1 e2 : DoseEvent) (l : list DoseEvent) :
  id e1 = id e2 -> find (sameId e2) l = find (sameId e1) l.
Proof.
  intros H. induction l as [|p l IH]; simpl; [reflexivity|].
  rewrite (sameId_congr e1 e2 p H). now rewrite IH.
Qed.

Lemma replace_none (e : DoseEvent) (l : list DoseEvent) :
  find (sameId e) l = None ->
  map (fun p => if sameId e p then e else p) l = l.
Proof.
  induction l as [|p l IH]; simpl; [reflexivity|].
  destruct (sameId e p); [discriminate|]. intros H. now rewrite IH.
Qed.

Lemma replace_replace (e1 e2 : DoseEvent) (l : list DoseEvent) :
  id e1 = id e2 ->
  map (fun p => if sameId e2 p then e2 else p)
    (map (fun p => if sameId e1 p then e1 else p) l)
  = map (fun p => if sameId e2 p then e2 else p) l.
Proof.
  intros H. rewrite map_map. apply map_ext. intros p.
  destruct (sameId e1 p) eqn:E.
  - rewrite (sameId_congr e1 e2 p H), E.
    unfold sameId. now rewrite H, String.eqb_refl.
  - reflexivity.
Qed.

Lemma find_replace_some (e : DoseEvent) (l : list DoseEvent) (q : DoseEvent) :
  find (sameId e) l = Some q ->
  exists q', find (sameId e) (map (fun p => if sameId e p then e else p) l)
             = Some q'.
Proof.
  induction l as [|p l IH]; simpl; [discriminate|].
  destruct (sameId e p) eqn:E.
  - intros _. exists e. unfold sameId at 1. now rewrite String.eqb_refl.
  - rewrite E. exact IH.
Qed.

Lemma find_app_self (e : DoseEvent) (l : list DoseEvent) :
  find (sameId e) l = None -> find (sameId e) (l ++ [e]) = Some e.
Proof.
  induction l as [|p l IH]; simpl.
  - intros _. unfold sameId. now rewrite String.eqb_refl.
  - destruct (sameId e p); [discriminate | exact IH].
Qed.

(** Saving twice under one id keeps only the second save: the result is the
    same as saving the second event alone.  In particular saving the same
    event twice changes nothing more. *)
Theorem save_last_write_wins (e1 e2 : DoseEvent) (prev : list DoseEvent) :
  id e1 = id e2 ->
  handleSaveEvent e2 (handleSaveEvent e1 prev) = handleSaveEvent e2 prev.
Proof.
  intros H. unfold handleSaveEvent at 2 3.
  rewrite (find_sameId_congr e1 e2 prev H).
  destruct (find (sameId e1) prev) as [q|] eqn:F.
  - unfold handleSaveEvent.
    destruct (find_replace_some e1 prev q F) as [q' F'].
    rewrite (find_sameId_congr e1 e2 _ H), F'.
    now apply replace_replace.
  - unfold handleSaveEvent.
    rewrite (find_sameId_congr e1 e2 _ H), (find_app_self e1 prev F).
    rewrite map_app. simpl.
    rewrite <- (find_sameId_congr e1 e2 prev H) in F.
    rewrite (replace_none e2 prev F).
    unfold sameId. now rewrite H, String.eqb_refl.
Qed.

Lemma replace_ids (e : DoseEvent) (l : list DoseEvent) :
  map id (map (fun p => if sameId e p then e else p) l) = map id l.
Proof.
  rewrite map_map. apply map_ext_in. intros p _.
  destruct (sameId e p) eqn:E; [|reflexivity].
  unfold sameId in E. apply String.eqb_eq in E. now symmetry.
Qed.

Lemma filter_ids_NoDup (f : DoseEvent -> bool) (l : list DoseEvent) :
  NoDup (map id l) -> NoDup (map id (filter f l)).
Proof.
  induction l as [|p l IH]; simpl; [auto|].
  intros H. inversion H as [|x xs Hnin Hnd]; subst.
  destruct (f p); simpl; [|now apply IH].
  constructor; [|now apply IH].
  intros Hin. apply Hnin. apply in_map_iff in Hin.
  destruct Hin as [q [Hq Hf]]. apply filter_In in Hf.
  apply in_map_iff. exists q. tauto.
Qed.

Lemma NoDup_snoc (l : list string) (a : string) :
  NoDup l -> ~ In a l -> NoDup (l ++ [a]).
Proof.
  induction l as [|x l IH]; simpl; intros H Hn.
  - constructor; [tauto | constructor].
  - inversion H as [|y ys Hx Hl]; subst. constructor.
    + intros Hin. apply in_app_or in Hin. simpl in Hin.
      destruct Hin as [Hin|[E|[]]]; [contradiction | subst; tauto].
    + apply IH; tauto.
Qed.

(** The editing handlers keep the identifiers of the stored events pairwise
    distinct: saving an event and deleting one both preserve this. *)
Theorem editing_keeps_ids_unique (prev : list DoseEvent) :
  NoDup (map id prev) ->
  (forall e, NoDup (map id (handleSaveEvent e prev)))
  /\ (forall ident confirmed,
        NoDup (map id (handleDeleteEvent ident confirmed prev))).
Proof.
  intros H. split.
  - intros e. unfold handleSaveEvent.
    destruct (find (sameId e) prev) as [q|] eqn:F.
    + now rewrite replace_ids.
    + rewrite map_app. simpl. apply NoDup_snoc; [exact H|].
      intros Hin. apply in_map_iff in Hin. destruct Hin as [p [Hp Hin]].
      apply (find_none _ _ F) in Hin. unfold sameId in Hin.
      rewrite Hp, String.eqb_refl in Hin. discriminate.
  - intros ident [|]; simpl; [now apply filter_ids_NoDup | exact H].
Qed.

(** Deleting the event that was just saved undoes the save on the rest of
    the list: it gives what deleting that id from the earlier list gives,
    and the earlier list itself when the id was new. *)
Theorem delete_after_save (e : DoseEvent) (prev : list DoseEvent) :
  handleDeleteEvent (id e) true (handleSaveEvent e prev)
  = handleDeleteEvent (id e) true prev
  /\ ((forall p, In p prev -> id p <> id e) ->
      handleDeleteEvent (id e) true (handleSaveEvent e prev) = prev).
Proof.
  assert (G : handleDeleteEvent (id e) true (handleSaveEvent e prev)
              = handleDeleteEvent (id e) true prev).
  { unfold handleDeleteEvent, handleSaveEvent.
    destruct (find (sameId e) prev);
      [apply (map_replace_others e prev) | apply (append_others e prev)]. }
  split; [exact G|].
  intros Hnew. rewrite G. clear G. unfold handleDeleteEvent.
  induction prev as [|p prev IH]; simpl; [reflexivity|].
  destruct (String.eqb_spec (id p) (id e)) as [E|N]; simpl.
  - exfalso. apply (Hnew p); [now left | exact E].
  - f_equal. apply IH. intros q Hq. apply Hnew. now right.
Qed.

End EditingProperties.

Section ImportProperties.
Import JS App Handlers.

Variable SimulationResult : Type.
Variable RouteValues : list string.
Variable EsterValues : list string.
Variable Ester_E2 : string.
Variable uuidv4 : nat -> string.
Variable StringToNumber : string -> number.
Variable ObjectToNumber : value -> Completion number.

Abbreviation IState := (AppState SimulationResult).
Abbreviation sanitizeI :=
  (sanitizeImportedEvents RouteValues EsterValues Ester_E2 uuidv4
     StringToNumber ObjectToNumber).
Abbreviation sanitizeItemI :=
  (sanitizeItem RouteValues EsterValues Ester_E2 uuidv4
     StringToNumber ObjectToNumber).
Abbreviation mapItemsI :=
  (mapItems RouteValues EsterValues Ester_E2 uuidv4
     StringToNumber ObjectToNumber).
Abbreviation processI :=
  (processImportedData RouteValues EsterValues Ester_E2 uuidv4
     StringToNumber ObjectToNumber).
Abbreviation readI :=
  (readImportedData RouteValues EsterValues Ester_E2 uuidv4
     StringToNumber ObjectToNumber).
Abbreviation importI :=
  (importEventsFromJson RouteValues EsterValues Ester_E2 uuidv4
     StringToNumber ObjectToNumber (SimulationResult := SimulationResult)).
Abbreviation validI := (validEvent RouteValues EsterValues).

(** *** Sanitising stored events *)

Lemma includes_member (vals : list string) (s : string) :
  In s vals -> includes vals (Str s) = Some s.
Proof.
  intros H. unfold includes.
  assert (E : existsb (String.eqb s) vals = true).
  { apply existsb_exists. exists s. split; [exact H | apply String.eqb_refl]. }
  now rewrite E.
Qed.

Lemma sanitizeItem_valid (e : DoseEvent) (n : nat) :
  validI e -> sanitizeItemI (eventObject e) n = Normal (Some e, n).
Proof.
  intros (Hr & He & Ht & Hd & Hx).
  unfold sanitizeItem, eventObject.
  cbn [truthy typeofObject negb orb get lookup String.eqb Ascii.eqb Bool.eqb].
  rewrite (includes_member RouteValues (route e) Hr).
  rewrite (includes_member EsterValues (ester e) He).
  cbn [Number bind]. rewrite Ht, Hd, Hx. cbn [negb]. now destruct e.
Qed.

Lemma mapItems_valid (evs : list DoseEvent) (n : nat) :
  Forall validI evs ->
  mapItemsI (map eventObject evs) n = Normal (map Some evs, n).
Proof.
  induction 1 as [|e evs He _ IH]; simpl; [reflexivity|].
  rewrite (sanitizeItem_valid e n He). simpl. rewrite IH. reflexivity.
Qed.

Lemma filterNotNull_all (evs : list DoseEvent) :
  filterNotNull (map Some evs) = evs.
Proof.
  induction evs as [|e evs IH]; simpl; [reflexivity | now rewrite IH].
Qed.

Lemma sanitize_keeps_valid_events_aux (evs : list DoseEvent) (n : nat) :
  Forall validI evs ->
  sanitizeI (Arr (map eventObject evs)) n = Normal (evs, n).
Proof.
  intros H. unfold sanitizeImportedEvents.
  rewrite (mapItems_valid evs n H). simpl. now rewrite filterNotNull_all.
Qed.

(** Sanitising changes nothing in events that are already well formed: the
    array of their objects comes back as the same events, in order, and no
    identifier is drawn. *)
Theorem sanitize_keeps_valid_events (evs : list DoseEvent) (n : nat) :
  Forall validI evs ->
  sanitizeI (Arr (map eventObject evs)) n = Normal (evs, n).
Proof.
  exact (sanitize_keeps_valid_events_aux evs n).
Qed.

Lemma includes_in (vals : list string) (v : value) (s : string) :
  includes vals v = Some s -> In s vals.
Proof.
  destruct v; simpl; try discriminate.
  destruct (existsb (String.eqb s0) vals) eqn:E; [|discriminate].
  intros H; inversion H; subst.
  apply existsb_exists in E. destruct E as [x [Hx Heq]].
  apply String.eqb_eq in Heq. now subst.
Qed.

Lemma sanitizeItem_builds_valid (item : value) (n : nat) (e : DoseEvent) n' :
  In Ester_E2 EsterValues ->
  sanitizeItemI item n = Normal (Some e, n') -> validI e.
Proof.
  intros HE2. unfold sanitizeItem, validEvent.
  destruct (negb (truthy item) || negb (typeofObject item)); [discriminate|].
  destruct (includes RouteValues (get item "route")) as [r|] eqn:R;
    [|discriminate].
  apply includes_in in R.
  destruct (Number StringToNumber ObjectToNumber (get item "timeH"))
    as [t|msg]; simpl; [|discriminate].
  destruct (isFinite t) eqn:Ft; simpl; [|discriminate].
  destruct (Number StringToNumber ObjectToNumber (get item "doseMG"))
    as [d|msg]; simpl; [|discriminate].
  destruct (match get item "id" with Str s => (s, n) | _ => (uuidv4 n, S n) end)
    as [ident k].
  intros H; inversion H; subst; simpl.
  repeat split; auto.
  - destruct (includes EsterValues (get item "ester")) as [x|] eqn:X;
      [now apply includes_in in X | exact HE2].
  - destruct (isFinite d) eqn:Fd; [exact Fd | reflexivity].
  - destruct (truthy (get item "extras") && typeofObject (get item "extras"))
      eqn:X; [exact X | reflexivity].
Qed.

Lemma mapItems_builds_valid (items : list value) : forall n os n',
  In Ester_E2 EsterValues ->
  mapItemsI items n = Normal (os, n') ->
  Forall validI (filterNotNull os)
  /\ List.length (filterNotNull os) <= List.length items.
Proof.
  induction items as [|item rest IH]; intros n os n' HE2; simpl.
  - intros H; inversion H; subst. simpl. split; [constructor | lia].
  - destruct (sanitizeItemI item n) as [[o k]|msg] eqn:S1; simpl; [|discriminate].
    destruct (mapItemsI rest k) as [[os' k']|msg] eqn:S2; simpl; [|discriminate].
    intros H; inversion H; subst.
    destruct (IH k os' n' HE2 S2) as [V L].
    destruct o as [e|]; simpl.
    + split; [|lia]. constructor; [|exact V].
      eapply sanitizeItem_builds_valid; eassumption.
    + split; [exact V | lia].
Qed.

(** Every event [sanitizeImportedEvents] returns is well formed (known route
    and ester, finite time and dose, an object for its extras), and it
    returns at most one event per entry; [Ester.E2] is one of the ester
    values. *)
Theorem sanitize_builds_valid_events (raw : value) (n : nat) evs n' :
  In Ester_E2 EsterValues ->
  sanitizeI raw n = Normal (evs, n') ->
  Forall validI evs
  /\ exists items, raw = Arr items /\ List.length evs <= List.length items.
Proof.
  intros HE2. unfold sanitizeImportedEvents.
  destruct raw; try discriminate.
  destruct (mapItemsI items n) as [[os k]|msg] eqn:M; simpl; [|discriminate].
  intros H; inversion H; subst.
  destruct (mapItems_builds_valid items n os n' HE2 M) as [V L].
  split; [exact V|]. exists items. split; [reflexivity | exact L].
Qed.

(** Sanitising is idempotent: the events it returns, sanitised again, come
    back unchanged. *)
Theorem sanitize_idempotent (raw : value) (n m : nat) evs n' :
  In Ester_E2 EsterValues ->
  sanitizeI raw n = Normal (evs, n') ->
  sanitizeI (Arr (map eventObject evs)) m = Normal (evs, m).
Proof.
  intros HE2 H. apply sanitize_keeps_valid_events_aux.
  unfold sanitizeImportedEvents in H.
  destruct raw; try discriminate.
  destruct (mapItemsI items n) as [[os k]|msg] eqn:M; simpl in H; [|discriminate].
  inversion H; subst.
  exact (proj1 (mapItems_builds_valid items n os n' HE2 M)).
Qed.

(** *** Importing a file *)

Lemma state_eta (st : IState) :
  setDrawn (drawn st) (setWeight (weight st) (setEvents (events st) st)) = st.
Proof. now destruct st. Qed.

Lemma read_weight_positive (parsed : value) (n : nat) es w k :
  readI parsed n = Normal (es, Some w, k) -> PrimFloat.ltb 0 w = true.
Proof.
  unfold readImportedData.
  assert (G : forall (c : Completion (list DoseEvent * option number * nat)),
             (forall es0 w0 j, c = Normal (es0, Some w0, j) ->
                               PrimFloat.ltb 0 w0 = true) ->
             bind c (fun r => let '(newEvents, newWeight, j) := r in
               if Nat.eqb (List.length newEvents) 0 && falsyWeight newWeight
               then Thrown "No valid entries"
               else Normal (newEvents, newWeight, j))
             = Normal (es, Some w, k) -> PrimFloat.ltb 0 w = true).
  { intros c Hc. destruct c as [[[es0 w0] j]|msg]; simpl; [|discriminate].
    destruct (Nat.eqb (List.length es0) 0 && falsyWeight w0); [discriminate|].
    intros H; inversion H; subst. eapply Hc. reflexivity. }
  apply G. intros es0 w0 j.
  destruct parsed; try (simpl; discriminate).
  - destruct (sanitizeI (Arr items) n) as [[ev i]|msg]; simpl; discriminate.
  - destruct (if isArray (get (Obj props) "events")
              then sanitizeI (get (Obj props) "events") n
              else Normal ([], n)) as [[ev i]|msg]; simpl; [|discriminate].
    intros H; inversion H; subst.
    unfold importedWeight in *.
    destruct (get (Obj props) "weight"); try discriminate.
    destruct (PrimFloat.ltb 0 x) eqn:P; [|discriminate].
    match goal with H : Some _ = Some _ |- _ => now inversion H; subst end.
Qed.

Lemma read_not_both_empty (parsed : value) (n : nat) es k :
  readI parsed n = Normal (es, None, k) -> es <> [].
Proof.
  unfold readImportedData.
  match goal with |- bind ?c _ = _ -> _ => destruct c as [[[es0 w0] j]|msg] end;
    simpl; [|discriminate].
  destruct (Nat.eqb (List.length es0) 0 && falsyWeight w0) eqn:B; [discriminate|].
  intros H; inversion H; subst. simpl in B.
  rewrite andb_true_r in B. intros E. subst. discriminate.
Qed.

(** The two ways [processImportedData] ends. *)
Lemma process_cases (parsed : value) (st : IState) :
  processI parsed st = (st, false)
  \/ exists es w k,
       processI parsed st = (setDrawn k (setWeight w (setEvents es st)), true)
       /\ (es = events st \/ es <> [])
       /\ (w = weight st \/ PrimFloat.ltb 0 w = true).
Proof.
  unfold processImportedData.
  destruct (readI parsed (drawn st)) as [[[es w] k]|msg] eqn:R; [|now left].
  right.
  destruct w as [w|].
  - apply read_weight_positive in R.
    destruct es as [|e es]; simpl.
    + exists (events st), w, k. split; [now destruct st | auto].
    + exists (e :: es), w, k. split; [reflexivity|].
      split; [right; discriminate | auto].
  - apply read_not_both_empty in R.
    destruct es as [|e es]; [contradiction|]. simpl.
    exists (e :: es), (weight st), k. split; [now destruct st|].
    split; [right; discriminate | auto].
Qed.

Lemma import_cases (parsed : Completion value) (st : IState) :
  importI parsed st = AwaitPassword
  \/ importI parsed st = Imported st false
  \/ exists es w k,
       importI parsed st
       = Imported (setDrawn k (setWeight w (setEvents es st))) true
       /\ (es = events st \/ es <> [])
       /\ (w = weight st \/ PrimFloat.ltb 0 w = true).
Proof.
  unfold importEventsFromJson.
  destruct parsed as [v|msg]; [|now right; left].
  destruct v; try (now right; left);
    (destruct (looksEncrypted _); [now left|]; right;
     match goal with |- context [processI ?v st] =>
       destruct (process_cases v st) as [E|(es & w & k & E & He & Hw)];
       rewrite E; simpl; [now left | right; exists es, w, k; auto]
     end).
Qed.

(** A file import that reports failure has changed nothing: the component
    state is exactly the one before the call (bad JSON, [null], an entry
    that makes the sanitiser throw, or no valid entry at all). *)
Theorem import_failure_changes_nothing
    (parsed : Completion value) (st st' : IState) :
  importI parsed st = Imported st' false -> st' = st.
Proof.
  destruct (import_cases parsed st) as [E|[E|(es & w & k & E & _)]];
    rewrite E; intros H; [discriminate | | discriminate].
  injection H as Hs. now subst st'.
Qed.

(** A file import touches only the events, the weight and the identifier
    count; it never empties the event list (the events are kept or replaced
    by a non-empty list), and it keeps the weight or stores a strictly
    positive one.  The recorded modification time and the sync flags stay
    as they were. *)
Theorem import_replaces_events_and_weight_only
    (parsed : Completion value) (st st' : IState) (ok : bool) :
  importI parsed st = Imported st' ok ->
  exists es w k,
    st' = setDrawn k (setWeight w (setEvents es st))
    /\ (es = events st \/ es <> [])
    /\ (w = weight st \/ PrimFloat.ltb 0 w = true).
Proof.
  destruct (import_cases parsed st) as [E|[E|(es & w & k & E & He & Hw)]];
    rewrite E; intros H; [discriminate| |].
  - injection H as Hs _. subst st'.
    exists (events st), (weight st), (drawn st).
    rewrite state_eta. auto.
  - injection H as Hs _. subst st'. exists es, w, k. auto.
Qed.

Lemma read_events_valid (parsed : value) (n : nat) es w k :
  In Ester_E2 EsterValues ->
  readI parsed n = Normal (es, w, k) -> Forall validI es.
Proof.
  intros HE2. unfold readImportedData.
  assert (G : forall (c : Completion (list DoseEvent * option number * nat)),
             (forall es0 w0 j, c = Normal (es0, w0, j) -> Forall validI es0) ->
             bind c (fun r => let '(newEvents, newWeight, j) := r in
               if Nat.eqb (List.length newEvents) 0 && falsyWeight newWeight
               then Thrown "No valid entries"
               else Normal (newEvents, newWeight, j))
             = Normal (es, w, k) -> Forall validI es).
  { intros c Hc. destruct c as [[[es0 w0] j]|msg]; simpl; [|discriminate].
    destruct (Nat.eqb (List.length es0) 0 && falsyWeight w0); [discriminate|].
    intros H; inversion H; subst. eapply Hc. reflexivity. }
  apply G. intros es0 w0 j.
  destruct parsed; try (simpl; intros H; inversion H; constructor).
  - destruct (sanitizeI (Arr items) n) as [[ev i]|msg] eqn:S; simpl;
      [|discriminate].
    intros H; inversion H; subst.
    unfold sanitizeImportedEvents in S.
    destruct (mapItemsI items n) as [[os q]|msg] eqn:M; simpl in S;
      [|discriminate].
    inversion S; subst.
    exact (proj1 (mapItems_builds_valid items n os _ HE2 M)).
  - destruct (isArray (get (Obj props) "events")) eqn:A.
    + destruct (sanitizeI (get (Obj props) "events") n) as [[ev i]|msg] eqn:S;
        simpl; [|discriminate].
      intros H; inversion H; subst.
      unfold sanitizeImportedEvents in S.
      destruct (get (Obj props) "events"); try discriminate.
      destruct (mapItemsI items n) as [[os q]|msg] eqn:M; simpl in S;
        [|discriminate].
      inversion S; subst.
      exact (proj1 (mapItems_builds_valid items n os _ HE2 M)).
    + simpl. intros H; inversion H; subst. constructor.
Qed.

(** A file import keeps the stored events well formed: if they were before
    the import, they are after it, whether it succeeds or not; [Ester.E2] is
    one of the ester values. *)
Theorem import_keeps_events_valid
    (parsed : Completion value) (st st' : IState) (ok : bool) :
  In Ester_E2 EsterValues ->
  Forall validI (events st) ->
  importI parsed st = Imported st' ok ->
  Forall validI (events st').
Proof.
  intros HE2 Hv. unfold importEventsFromJson.
  assert (P : forall v, Forall validI (events (fst (processI v st)))).
  { intros v. unfold processImportedData.
    destruct (readI v (drawn st)) as [[[es w] k]|msg] eqn:R; [|exact Hv].
    apply (read_events_valid v (drawn st) es w k HE2) in R.
    destruct es as [|e es]; destruct w; simpl; assumption. }
  destruct parsed as [v|msg]; [|intros H; injection H as Hs _; now subst].
  destruct v;
    try (intros H; injection H as Hs _; now subst);
    (destruct (looksEncrypted _); [discriminate|];
     intros H; injection H as Hs _; subst st'; apply P).
Qed.

(** *** Export, the file's text, and import *)

Lemma positive_not_zero (w : number) :
  PrimFloat.ltb 0 w = true -> PrimFloat.eqb w 0 = false.
Proof.
  rewrite FloatAxioms.ltb_spec, FloatAxioms.eqb_spec. unfold SFltb, SFeqb.
  change (Prim2SF 0) with (S754_zero false).
  destruct (Prim2SF w) as [s|s| |s m e]; simpl; try discriminate;
    destruct s; simpl; try discriminate; reflexivity.
Qed.

(** The weight an import accepts from the text of an exported weight. *)
Lemma exported_weight_read_back (w : number) (rest : list (string * value)) :
  importedWeight (Obj (("weight", jsonRoundTrip (Num w)) :: rest))
  = if isFinite w && PrimFloat.ltb 0 w then Some w else None.
Proof.
  unfold importedWeight.
  cbn [get lookup String.eqb Ascii.eqb Bool.eqb jsonRoundTrip].
  destruct (isFinite w); [|reflexivity].
  destruct (PrimFloat.ltb 0 w) eqn:P; simpl.
  - rewrite (positive_not_zero w P). now rewrite P.
  - destruct (PrimFloat.eqb w 0); [reflexivity | now rewrite P].
Qed.

Lemma events_read_back (evs : list DoseEvent) :
  Forall (fun e => jsonRoundTrip (eventObject e) = eventObject e) evs ->
  map jsonRoundTrip (map eventObject evs) = map eventObject evs.
Proof.
  induction 1 as [|e evs He _ IH]; simpl; [reflexivity|].
  cbn [eventObject] in He. simpl in He. rewrite He. now rewrite IH.
Qed.

(** Export followed by import restores the events, and the weight when it
    can be written: for a state with at least one event, whose events are
    well formed and read back unchanged from JSON text, importing the text
    that [handleExportConfirm] writes (unencrypted) succeeds and stores
    exactly that state's events; it stores that state's weight when the
    weight is finite and strictly positive, and otherwise leaves the weight
    of the importing state as it was.  No identifier is drawn. *)
Theorem export_then_import_restores (now : string) (st st0 : IState) :
  Forall validI (events st) ->
  Forall (fun e => jsonRoundTrip (eventObject e) = eventObject e) (events st) ->
  handleSaveDosages st = true ->
  importI (Normal (jsonRoundTrip (exportData now st))) st0
  = Imported
      (setDrawn (drawn st0)
         (setWeight
            (if isFinite (weight st) && PrimFloat.ltb 0 (weight st)
             then weight st else weight st0)
            (setEvents (events st) st0)))
      true.
Proof.
  intros Hv Hs Hne.
  assert (E : jsonRoundTrip (exportData now st)
              = Obj [("meta", Obj [("version", Num 1%float);
                                   ("exportedAt", Str now)]);
                     ("weight", jsonRoundTrip (Num (weight st)));
                     ("events", Arr (map eventObject (events st)))]).
  { unfold exportData. cbn [jsonRoundTrip].
    rewrite (events_read_back (events st) Hs).
    destruct (isFinite (weight st)); [|reflexivity].
    destruct (PrimFloat.eqb (weight st) 0); reflexivity. }
  rewrite E. clear E.
  unfold importEventsFromJson.
  cbn [looksEncrypted get lookup String.eqb Ascii.eqb Bool.eqb truthy andb].
  unfold processImportedData, readImportedData.
  cbn [get lookup String.eqb Ascii.eqb Bool.eqb isArray].
  rewrite (sanitize_keeps_valid_events_aux (events st) (drawn st0) Hv).
  change (importedWeight
            (Obj [("meta", Obj [("version", Num 1%float);
                                ("exportedAt", Str now)]);
                  ("weight", jsonRoundTrip (Num (weight st)));
                  ("events", Arr (map eventObject (events st)))]))
    with (importedWeight
            (Obj [("weight", jsonRoundTrip (Num (weight st)));
                  ("events", Arr (map eventObject (events st)))])).
  rewrite exported_weight_read_back.
  cbn [bind fst snd].
  unfold handleSaveDosages in Hne.
  destruct (Nat.eqb (List.length (events st)) 0) eqn:L; [discriminate|].
  cbn [andb fst snd].
  destruct (events st) as [|e es]; [discriminate|].
  destruct (isFinite (weight st) && PrimFloat.ltb 0 (weight st));
    [reflexivity | now destruct st0].
Qed.

End ImportProperties.

Section DisplayProperties.
Import JS App.

Variable SimulationResult : Type.
Variable interpolateConcentration : SimulationResult -> number -> option number.


End DisplayProperties.

Section SyncProperties.
Import JS App Handlers.

Variable SimulationResult : Type.
Variable runSimulation : list DoseEvent -> number -> SimulationResult.
Variable RouteValues : list string.
Variable EsterValues : list string.
Variable Ester_E2 : string.
Variable uuidv4 : nat -> string.
Variable StringToNumber : string -> number.
Variable ObjectToNumber : value -> Completion number.

Abbreviation SState := (AppState SimulationResult).
Abbreviation stepS :=
  (step runSimulation RouteValues EsterValues Ester_E2 uuidv4
     StringToNumber ObjectToNumber).
Abbreviation stepsS :=
  (steps runSimulation RouteValues EsterValues Ester_E2 uuidv4
     StringToNumber ObjectToNumber).

(** *** String order *)

Lemma strGt_irrefl (s : string) : strGt s s = false.
Proof.
  unfold strGt. pose proof (String.compare_antisym s s) as H.
  destruct (String.compare s s); try reflexivity. discriminate.
Qed.

(** *** Upload *)

Lemma sync_cases (now : string) (st : SState) :
  syncDataToCloud now st = (st, None)
  \/ (isImporting st = false
      /\ syncEnabled st = true
      /\ (events st <> [] \/ initialLoadComplete st = true)
      /\ syncDataToCloud now st
         = (setLastLocalModification now (setIsSyncing true st),
            Some (mkSyncData (Some now) (Some (weight st)) (Some (events st))))).
Proof.
  unfold syncDataToCloud.
  destruct (isImporting st); [now left|].
  destruct (syncEnabled st); simpl; [|now left].
  destruct (events st) as [|e es] eqn:E; simpl.
  - destruct (initialLoadComplete st); simpl; [|now left].
    right. repeat split; auto.
  - right. repeat split; auto. left; discriminate.
Qed.

(** [syncDataToCloud] uploads nothing and changes nothing while an import
    is in progress, when sync is disabled, or when the list is empty and the
    initial load is not complete; otherwise it uploads exactly the local
    events and weight, stamped with the current time, and records that
    stamp as the local modification time. *)
Theorem upload_guards_and_payload (now : string) (st : SState) :
  (syncDataToCloud now st = (st, None)
   /\ (isImporting st = true \/ syncEnabled st = false
       \/ (events st = [] /\ initialLoadComplete st = false)))
  \/ (isImporting st = false
      /\ syncEnabled st = true
      /\ (events st <> [] \/ initialLoadComplete st = true)
      /\ snd (syncDataToCloud now st)
         = Some (mkSyncData (Some now) (Some (weight st)) (Some (events st)))
      /\ lastLocalModification (fst (syncDataToCloud now st)) = now
      /\ events (fst (syncDataToCloud now st)) = events st
      /\ weight (fst (syncDataToCloud now st)) = weight st).
Proof.
  unfold syncDataToCloud.
  destruct (isImporting st); [left; auto|].
  destruct (syncEnabled st); simpl; [|left; auto].
  destruct (events st) as [|e es] eqn:E; simpl.
  - destruct (initialLoadComplete st); simpl; [|left; auto].
    right. rewrite E. repeat split; auto.
  - right. rewrite E. repeat split; auto. left; discriminate.
Qed.

Lemma pollResume_same_stamp (d : SyncData) (st : SState) :
  exportedAt d = Some (lastLocalModification st) ->
  pollResume (FetchData d) st = st.
Proof.
  intros H. unfold pollResume, stamp. rewrite H.
  destruct (truthyStr (lastLocalModification st)); [|reflexivity].
  now rewrite strGt_irrefl.
Qed.

(** A device never re-imports its own upload: when the polling callback
    fetches back the payload that [syncDataToCloud] has just uploaded, the
    state is left as it is. *)
Theorem own_upload_is_not_reimported
    (now : string) (st st1 started : SState) (d : SyncData) :
  syncDataToCloud now st = (st1, Some d) ->
  pollInterval started (FetchData d) st1 = st1.
Proof.
  intros H.
  destruct (sync_cases now st) as [E|(_ & _ & _ & E)]; rewrite E in H;
    [discriminate|].
  injection H as H1 H2. subst st1 d.
  unfold pollInterval.
  destruct (isImporting started || isSyncing started); [reflexivity|].
  destruct (syncTimer started); [reflexivity|].
  now apply pollResume_same_stamp.
Qed.

(** What one device uploads, another one gets: a cloud import of the
    uploaded payload stores the uploader's events and weight and its stamp,
    after which polling the same payload changes nothing; and a poll that
    passes its guards does the same when the stamp is newer than the local
    modification time. *)
Theorem upload_then_import_transfers
    (now : string) (stA stA' stB : SState) (d : SyncData) :
  syncDataToCloud now stA = (stA', Some d) ->
  truthyStr now = true ->
  (events (handleImportFromCloud d stB) = events stA
   /\ weight (handleImportFromCloud d stB) = weight stA
   /\ lastLocalModification (handleImportFromCloud d stB) = now
   /\ pollResume (FetchData d) (handleImportFromCloud d stB)
      = handleImportFromCloud d stB)
  /\ (strGt now (lastLocalModification stB) = true ->
      events (pollResume (FetchData d) stB) = events stA
      /\ weight (pollResume (FetchData d) stB) = weight stA
      /\ lastLocalModification (pollResume (FetchData d) stB) = now).
Proof.
  intros H Hnow.
  destruct (sync_cases now stA) as [E|(_ & _ & _ & E)]; rewrite E in H;
    [discriminate|].
  injection H as H1 H2. subst stA' d.
  split.
  - assert (S : handleImportFromCloud
                  (mkSyncData (Some now) (Some (weight stA)) (Some (events stA)))
                  stB
                = setLastLocalModification now
                    (setWeight (weight stA)
                       (setEvents (events stA) (setIsImporting true stB)))).
    { unfold handleImportFromCloud, recordStamp, stamp. simpl.
      now rewrite Hnow. }
    rewrite S. repeat split.
    apply pollResume_same_stamp. reflexivity.
  - intros G. unfold pollResume, stamp. simpl. rewrite Hnow, G.
    repeat split.
Qed.

Lemma pollResume_cases (r : FetchOutcome) (st : SState) :
  pollResume r st = st
  \/ exists d s,
       r = FetchData d /\ stamp d = Some s
       /\ strGt s (lastLocalModification st) = true
       /\ pollResume r st
          = setLastLocalModification s
              (setWeight (orDefaultWeight (cloudWeight d))
                 (setEvents (orEmpty (cloudEvents d))
                    (setIsImporting true st))).
Proof.
  unfold pollResume.
  destruct r as [| |d]; try now left.
  destruct (stamp d) as [s|] eqn:S; [|now left].
  destruct (strGt s (lastLocalModification st)) eqn:G; [|now left].
  right. exists d, s. auto.
Qed.

(** Polling converges: applying the same fetched payload a second time
    changes nothing more, and a poll never moves the recorded modification
    time backwards. *)
Theorem poll_is_idempotent_and_monotone (r : FetchOutcome) (st : SState) :
  pollResume r (pollResume r st) = pollResume r st
  /\ (lastLocalModification (pollResume r st) = lastLocalModification st
      \/ strGt (lastLocalModification (pollResume r st))
               (lastLocalModification st) = true).
Proof.
  destruct (pollResume_cases r st) as [E|(d & s & Hr & S & G & P)].
  - rewrite !E. split; [reflexivity | now left].
  - rewrite P. split; [|right; exact G].
    subst r. unfold pollResume. rewrite S. simpl. now rewrite strGt_irrefl.
Qed.

(** *** Load on mount *)

(** With sync enabled, a non-empty cloud list replaces the local events
    whole, with the payload's weight. *)
Lemma loadFromCloud_stores_cloud_list
    (d : SyncData) (e : DoseEvent) (es : list DoseEvent) (st : SState) :
  syncEnabled st = true -> cloudEvents d = Some (e :: es) ->
  events (loadFromCloud (FetchData d) st) = e :: es
  /\ weight (loadFromCloud (FetchData d) st) = orDefaultWeight (cloudWeight d).
Proof.
  intros En Ev. unfold loadFromCloud, recordStamp. rewrite En, Ev. simpl.
  destruct (stamp d); split; reflexivity.
Qed.

(** *** No upload while cloud data is being written *)

Lemma sync_skips_importing (now : string) (st : SState) :
  isImporting st = true -> syncDataToCloud now st = (st, None).
Proof. intros H. unfold syncDataToCloud. now rewrite H. Qed.

Lemma recordStamp_isImporting (d : SyncData) (st : SState) :
  isImporting (recordStamp d st) = isImporting st.
Proof. unfold recordStamp. now destruct (stamp d). Qed.

(** Right after the load on mount, a cloud import or a poll that overwrote
    local data (before their timers reset the import flag), the upload
    routine uploads nothing. *)
Theorem no_upload_while_cloud_data_is_written (now : string) (st : SState) :
  (forall r, snd (syncDataToCloud now (loadFromCloud r st)) = None)
  /\ (forall d, snd (syncDataToCloud now (handleImportFromCloud d st)) = None)
  /\ (forall started r,
        pollInterval started r st = st
        \/ snd (syncDataToCloud now (pollInterval started r st)) = None).
Proof.
  repeat split.
  - intros r. unfold loadFromCloud.
    destruct (syncEnabled st) eqn:En; simpl.
    + rewrite sync_skips_importing; [reflexivity|].
      destruct r as [| |d]; try reflexivity.
      destruct (cloudEvents d) as [[|e es]|];
        try (destruct (stamp d); reflexivity).
      now rewrite recordStamp_isImporting.
    + unfold syncDataToCloud. simpl. rewrite En. simpl.
      now destruct (isImporting st).
  - intros d. rewrite sync_skips_importing; [reflexivity|].
    unfold handleImportFromCloud. now rewrite recordStamp_isImporting.
  - intros started r.
    destruct (pollInterval_cases SimulationResult started r st) as [E|(d & s & _ & _ & _ & P)];
      [now left|].
    right. rewrite P. now rewrite sync_skips_importing.
Qed.

(** *** The debounce timer and the polling guard *)

Lemma recordStamp_syncTimer (d : SyncData) (st : SState) :
  syncTimer (recordStamp d st) = syncTimer st.
Proof. unfold recordStamp. now destruct (stamp d). Qed.

Lemma step_keeps_syncTimer (a : Action) (st : SState) :
  syncTimer st = true -> syncTimer (stepS a st) = true.
Proof.
  intros H. destruct a; simpl; auto.
  - unfold handleClearAllEvents.
    destruct (Nat.eqb (List.length (events st)) 0); [exact H|].
    destruct confirmed; exact H.
  - destruct (import_cases SimulationResult RouteValues EsterValues Ester_E2 uuidv4
                StringToNumber ObjectToNumber parsed st)
      as [E|[E|(es & w & k & E & _)]]; rewrite E; exact H.
  - unfold handlePasswordSubmit.
    destruct decrypted as [[v|msg]|]; try exact H.
    destruct (process_cases SimulationResult RouteValues EsterValues Ester_E2 uuidv4
                StringToNumber ObjectToNumber v st)
      as [E|(es & w & k & E & _)]; rewrite E; exact H.
  - unfold handleImportFromCloud. now rewrite recordStamp_syncTimer.
  - unfold handleCloudSyncSave.
    destruct (negb (syncEnabled st) && newEnabled); [|exact H].
    destruct r as [| |d]; try exact H.
    destruct confirmed; [|exact H]. now rewrite recordStamp_syncTimer.
  - unfold loadFromCloud.
    destruct (negb (syncEnabled st)); [exact H|].
    destruct r as [| |d]; try exact H.
    destruct (cloudEvents d) as [[|e es]|];
      try (destruct (stamp d); exact H).
    now rewrite recordStamp_syncTimer.
  - destruct (pollInterval_cases SimulationResult st r st) as [E|(d & s & _ & _ & _ & P)];
      rewrite ?E, ?P; exact H.
  - destruct (sync_cases now st) as [E|(_ & _ & _ & E)]; rewrite E; exact H.
  - unfold simulationEffect.
    destruct (Nat.ltb 0 (List.length (events st))); exact H.
Qed.

Lemma steps_keep_syncTimer (l : list Action) : forall st : SState,
  syncTimer st = true -> syncTimer (stepsS l st) = true.
Proof.
  induction l as [|a l IH]; intros st H; simpl; [exact H|].
  apply IH. now apply step_keeps_syncTimer.
Qed.

(** Once an effect has stored the events or the weight (which arms the
    debounce timer), nothing the component does clears the timer reference,
    so every later run of the polling callback stops at its pending-sync
    guard and leaves the state as it is, whatever the cloud returns. *)
Theorem polling_stops_once_timer_is_armed
    (l : list Action) (st0 : SState) (r : FetchOutcome) (st : SState) :
  pollInterval (stepsS (PersistEvents :: l) st0) r st = st
  /\ pollInterval (stepsS (PersistWeight :: l) st0) r st = st.
Proof.
  assert (G : forall started : SState,
             syncTimer started = true -> pollInterval started r st = st).
  { intros started H. unfold pollInterval.
    destruct (isImporting started || isSyncing started); [reflexivity|].
    now rewrite H. }
  split; apply G; simpl; apply steps_keep_syncTimer; reflexivity.
Qed.

(** *** Enabling sync and the dialog's import *)

(** Saving the sync settings replaces local events and weight only when sync
    goes from disabled to enabled, the fetch returns data and the user
    confirms; in every other case it only records the new setting. *)
Theorem sync_save_overwrites_only_when_confirmed
    (newEnabled : bool) (r : FetchOutcome) (confirmed : bool) (st : SState) :
  handleCloudSyncSave newEnabled r confirmed st = setSyncEnabled newEnabled st
  \/ (syncEnabled st = false /\ newEnabled = true /\ confirmed = true
      /\ exists d, r = FetchData d
           /\ events (handleCloudSyncSave newEnabled r confirmed st)
              = orEmpty (cloudEvents d)
           /\ weight (handleCloudSyncSave newEnabled r confirmed st)
              = orDefaultWeight (cloudWeight d)).
Proof.
  unfold handleCloudSyncSave.
  destruct (syncEnabled st) eqn:En; simpl; [now left|].
  destruct newEnabled; [|now left].
  destruct r as [| |d]; try now left.
  destruct confirmed; [|now left].
  right. repeat split. exists d. split; [reflexivity|].
  unfold recordStamp. destruct (stamp d); split; reflexivity.
Qed.

(** The dialog's cloud import reaches the component only when the address,
    the user name and the password are all filled in, the fetch returns data
    and the user confirms; otherwise the component state is untouched. *)
Theorem dialog_import_needs_fields_data_and_consent
    (cfg : SyncConfig) (r : FetchOutcome) (confirmed : bool) (st : SState) :
  dialogImportFromCloud cfg r confirmed st = st
  \/ (syncUrl cfg <> "" /\ username cfg <> "" /\ password cfg <> ""
      /\ confirmed = true
      /\ exists d, r = FetchData d
           /\ dialogImportFromCloud cfg r confirmed st
              = handleImportFromCloud d st).
Proof.
  unfold dialogImportFromCloud, fieldsMissing.
  destruct (syncUrl cfg) as [|a u]; [now left|].
  destruct (username cfg) as [|b n]; [now left|].
  destruct (password cfg) as [|c p]; [now left|]. simpl.
  destruct r as [| |d]; try now left.
  destruct confirmed; [|now left].
  right. repeat split; try discriminate. exists d. now split.
Qed.

End SyncProperties.

Section TimelineProperties.
Import JS App Handlers.

Variable dateKey : DoseEvent -> string.

Abbreviation groupOkT := (groupOk dateKey).
Abbreviation groupedEventsT := (groupedEvents dateKey).

Lemma insertByTime_perm (x : DoseEvent) (l : list DoseEvent) :
  Permutation (insertByTime x l) (x :: l).
Proof.
  induction l as [|y l IH]; simpl; [reflexivity|].
  destruct (PrimFloat.ltb (timeH y - timeH x) 0); [reflexivity|].
  rewrite IH. apply perm_swap.
Qed.

Lemma sortByTime_perm_acc (l : list DoseEvent) : forall acc,
  Permutation (fold_left (fun a x => insertByTime x a) l acc) (acc ++ l).
Proof.
  induction l as [|x l IH]; intros acc; simpl.
  - now rewrite app_nil_r.
  - rewrite IH. rewrite insertByTime_perm.
    apply Permutation_middle.
Qed.

Lemma sortByTime_perm (l : list DoseEvent) : Permutation (sortByTime l) l.
Proof. apply (sortByTime_perm_acc l []). Qed.

(** The events of all groups, group after group. *)
Lemma pushGroup_members (d : string) (e : DoseEvent)
    (g : list (string * list DoseEvent)) :
  Permutation (List.concat (map snd (pushGroup d e g))) (e :: List.concat (map snd g)).
Proof.
  induction g as [|[k es] g IH]; simpl; [reflexivity|].
  destruct (String.eqb k d); simpl.
  - rewrite <- app_assoc. simpl. symmetry. apply Permutation_middle.
  - rewrite IH. symmetry. apply Permutation_middle.
Qed.

Lemma pushGroup_keys (d : string) (e : DoseEvent)
    (g : list (string * list DoseEvent)) :
  (In d (map fst g) /\ map fst (pushGroup d e g) = map fst g)
  \/ (~ In d (map fst g) /\ map fst (pushGroup d e g) = map fst g ++ [d]).
Proof.
  induction g as [|[k es] g IH]; simpl; [right; split; [tauto | reflexivity]|].
  destruct (String.eqb_spec k d) as [E|N]; simpl.
  - left. split; [now left | reflexivity].
  - destruct IH as [[Hin Hk]|[Hn Hk]]; rewrite Hk.
    + left. split; [now right | reflexivity].
    + right. split; [tauto | reflexivity].
Qed.

Lemma pushGroup_ok (e : DoseEvent) (g : list (string * list DoseEvent)) :
  Forall groupOkT g -> Forall groupOkT (pushGroup (dateKey e) e g).
Proof.
  induction 1 as [|[k es] g [Hne Hall] Hg IH]; simpl.
  - constructor; [|constructor]. split; [discriminate|]. simpl. now constructor.
  - simpl in Hne, Hall.
    destruct (String.eqb_spec k (dateKey e)) as [E|N].
    + constructor; [|exact Hg]. split; simpl.
      * intros Z. apply app_eq_nil in Z. destruct Z; discriminate.
      * apply Forall_app. split; [exact Hall|].
        constructor; [now symmetry | constructor].
    + constructor; [|exact IH]. split; assumption.
Qed.

Lemma grouping_acc (l : list DoseEvent) : forall g,
  NoDup (map fst g) -> Forall groupOkT g ->
  let g' := fold_left (fun groups e => pushGroup (dateKey e) e groups) l g in
  Permutation (List.concat (map snd g')) (List.concat (map snd g) ++ l)
  /\ NoDup (map fst g') /\ Forall groupOkT g'.
Proof.
  induction l as [|e l IH]; intros g Hk Hok; simpl.
  - rewrite app_nil_r. auto.
  - assert (Hk' : NoDup (map fst (pushGroup (dateKey e) e g))).
    { destruct (pushGroup_keys (dateKey e) e g) as [[_ E]|[Hn E]]; rewrite E;
        [exact Hk | now apply NoDup_snoc]. }
    destruct (IH _ Hk' (pushGroup_ok e g Hok)) as (P & K & O).
    split; [|split; assumption].
    rewrite P, pushGroup_members. apply Permutation_middle.
Qed.

(** The timeline groups partition the events: every stored event appears in
    the groups exactly as often as in the list, each day has one group, no
    group is empty, and every event sits in the group of its own day. *)
Theorem groupedEvents_partition (evs : list DoseEvent) :
  Permutation (List.concat (map snd (groupedEventsT evs))) evs
  /\ NoDup (map fst (groupedEventsT evs))
  /\ Forall (fun kv => snd kv <> []
                       /\ Forall (fun e => dateKey e = fst kv) (snd kv))
       (groupedEventsT evs).
Proof.
  unfold groupedEvents.
  destruct (grouping_acc (sortByTime evs) [] (NoDup_nil _) (Forall_nil _))
    as (P & K & O).
  split; [|split; assumption].
  rewrite P. simpl. apply sortByTime_perm.
Qed.

End TimelineProperties.

(* ================================================================= *)
(** ** Concrete instances of the further properties *)

Section MoreInstances.
Import JS App Handlers Samples MoreSamples.

Lemma doseA_valid : validEvent routes esters doseA.
Proof.
  unfold validEvent. simpl. repeat split; auto.
Defined.

Lemma save_last_write_wins_witness :
  id doseA = id doseA'
  /\ handleSaveEvent doseA' (handleSaveEvent doseA [])
     = handleSaveEvent doseA' [].
Proof.
  assert (H : id doseA = id doseA') by reflexivity.
  split; [exact H|]. exact (save_last_write_wins doseA doseA' [] H).
Defined.

Lemma editing_keeps_ids_unique_witness :
  NoDup (map id [doseA])
  /\ (forall e, NoDup (map id (handleSaveEvent e [doseA])))
  /\ (forall ident confirmed,
        NoDup (map id (handleDeleteEvent ident confirmed [doseA]))).
Proof.
  assert (H : NoDup (map id [doseA])).
  { simpl. constructor; [simpl; tauto | constructor]. }
  split; [exact H|]. exact (editing_keeps_ids_unique [doseA] H).
Defined.

Lemma sanitize_keeps_valid_events_witness :
  Forall (validEvent routes esters) [doseA]
  /\ sanitizeImportedEvents routes esters "E2" uuid stringToNumber
       objectToNumber (Arr (map eventObject [doseA])) 0
     = Normal ([doseA], 0).
Proof.
  assert (H : Forall (validEvent routes esters) [doseA]).
  { constructor; [exact doseA_valid | constructor]. }
  split; [exact H|].
  exact (sanitize_keeps_valid_events routes esters "E2" uuid stringToNumber
           objectToNumber [doseA] 0 H).
Defined.

Lemma E2_is_an_ester : In "E2" esters.
Proof. simpl. auto. Defined.

Lemma negativeDoseFile_sanitized :
  sanitizeImportedEvents routes esters "E2" uuid stringToNumber objectToNumber
    negativeDoseFile 0 = Normal ([negativeDoseEvent], 0).
Proof. reflexivity. Defined.

Lemma sanitize_builds_valid_events_witness :
  Forall (validEvent routes esters) [negativeDoseEvent]
  /\ exists items, negativeDoseFile = Arr items
       /\ List.length [negativeDoseEvent] <= List.length items.
Proof.
  exact (sanitize_builds_valid_events routes esters "E2" uuid stringToNumber
           objectToNumber negativeDoseFile 0 [negativeDoseEvent] 0
           E2_is_an_ester negativeDoseFile_sanitized).
Defined.

Lemma sanitize_idempotent_witness :
  sanitizeImportedEvents routes esters "E2" uuid stringToNumber objectToNumber
    (Arr (map eventObject [negativeDoseEvent])) 5
  = Normal ([negativeDoseEvent], 5).
Proof.
  exact (sanitize_idempotent routes esters "E2" uuid stringToNumber
           objectToNumber negativeDoseFile 0 5 [negativeDoseEvent] 0
           E2_is_an_ester negativeDoseFile_sanitized).
Defined.

Lemma bad_text_rejected :
  importEventsFromJson routes esters "E2" uuid stringToNumber objectToNumber
    (Thrown "Unexpected token") oneDoseState
  = Imported oneDoseState false.
Proof. reflexivity. Defined.

Lemma import_failure_changes_nothing_witness :
  importEventsFromJson routes esters "E2" uuid stringToNumber objectToNumber
    (Thrown "Unexpected token") oneDoseState
  = Imported oneDoseState false
  /\ oneDoseState = oneDoseState.
Proof.
  split; [exact bad_text_rejected|].
  exact (import_failure_changes_nothing unit routes esters "E2" uuid
           stringToNumber objectToNumber (Thrown "Unexpected token")
           oneDoseState oneDoseState bad_text_rejected).
Defined.


Lemma negativeDoseFile_imported :
  importEventsFromJson routes esters "E2" uuid stringToNumber objectToNumber
    (Normal negativeDoseFile) oneDoseState
  = Imported (setDrawn 0 (setEvents [negativeDoseEvent] oneDoseState)) true.
Proof. reflexivity. Defined.

Lemma import_keeps_events_valid_witness :
  Forall (validEvent routes esters) (events oneDoseState)
  /\ Forall (validEvent routes esters)
       (events (setDrawn 0 (setEvents [negativeDoseEvent] oneDoseState))).
Proof.
  assert (H : Forall (validEvent routes esters) (events oneDoseState)).
  { constructor; [exact doseA_valid | constructor]. }
  split; [exact H|].
  exact (import_keeps_events_valid unit routes esters "E2" uuid
           stringToNumber objectToNumber (Normal negativeDoseFile)
           oneDoseState _ true E2_is_an_ester H negativeDoseFile_imported).
Defined.

Lemma import_replaces_events_and_weight_only_witness :
  exists es w k,
    setDrawn 0 (setEvents [negativeDoseEvent] oneDoseState)
    = setDrawn k (setWeight w (setEvents es oneDoseState))
    /\ (es = events oneDoseState \/ es <> [])
    /\ (w = weight oneDoseState \/ PrimFloat.ltb 0 w = true).
Proof.
  exact (import_replaces_events_and_weight_only unit routes esters "E2" uuid
           stringToNumber objectToNumber (Normal negativeDoseFile)
           oneDoseState _ true negativeDoseFile_imported).
Defined.

Lemma export_then_import_restores_witness :
  importEventsFromJson routes esters "E2" uuid stringToNumber objectToNumber
    (Normal (jsonRoundTrip (exportData uploadTime oneDoseState))) idleState
  = Imported (setDrawn (drawn idleState)
                (setWeight (weight oneDoseState)
                   (setEvents (events oneDoseState) idleState))) true.
Proof.
  apply (export_then_import_restores unit routes esters "E2" uuid
           stringToNumber objectToNumber uploadTime oneDoseState idleState).
  - constructor; [exact doseA_valid | constructor].
  - constructor; [reflexivity | constructor].
  - reflexivity.
Defined.

Lemma oneDoseState_uploads :
  syncDataToCloud uploadTime oneDoseState
  = (setLastLocalModification uploadTime (setIsSyncing true oneDoseState),
     Some uploadedPayload).
Proof. reflexivity. Defined.

Lemma own_upload_is_not_reimported_witness :
  pollInterval idleState (FetchData uploadedPayload)
    (setLastLocalModification uploadTime (setIsSyncing true oneDoseState))
  = setLastLocalModification uploadTime (setIsSyncing true oneDoseState).
Proof.
  exact (own_upload_is_not_reimported unit uploadTime oneDoseState _ idleState
           uploadedPayload oneDoseState_uploads).
Defined.

Lemma upload_then_import_transfers_witness :
  events (handleImportFromCloud uploadedPayload idleState) = [doseA]
  /\ weight (handleImportFromCloud uploadedPayload idleState) = 70.0%float.
Proof.
  destruct (upload_then_import_transfers unit uploadTime oneDoseState _
              idleState uploadedPayload oneDoseState_uploads eq_refl)
    as [(He & Hw & _) _].
  split; [exact He | exact Hw].
Defined.

End MoreInstances.
